(** * Resilience utilities of the campaign engine (src/utils/resilience.js)

    A shallow embedding of the four exported components
    - [CircuitBreaker]            (module [Breaker]),
    - [FreeTierRateLimiter]       (module [Limiter]),
    - [GracefulDegradationManager] (module [Degradation]),
    - [retryWithBackoff]          (module [Retry]),
    followed by the properties stated about them.

    Conventions.  JavaScript numbers that the code uses as counters, levels
    and millisecond timestamps are integers ([Z]); ratios are exact rationals
    ([Q]).  Calls to [console.log] / [console.warn] have no effect on any
    value the code computes and are left out. *)

From Stdlib Require Import ZArith QArith Qminmax Bool Lia Ascii.
From stdpp Require Import gmap strings.

Local Open Scope Z_scope.

(** ** JavaScript values and the ways a callback can complete *)

(** An [Error] object: its identity and its [message].  The code reads
    [error.message] on every error it catches, so callbacks are taken to
    throw [Error] objects. *)
Record Error := new_Error { ref : nat; message : string }.

Inductive value :=
| VUndefined
| VNull
| VBool (b : bool)
| VNum (n : Z)
| VStr (s : string)
| VObj (id : nat)          (* any other object or array, by identity *)
| VErr (e : Error).

(** ToBoolean, as used by [||] and [&&]. *)
Definition truthy (v : value) : bool :=
  match v with
  | VUndefined | VNull => false
  | VBool b => b
  | VNum n => negb (n =? 0)
  | VStr s => negb (String.eqb s "")
  | VObj _ | VErr _ => true
  end.

(** [a || b] on already evaluated operands. *)
Definition js_or (a b : value) : value := if truthy a then a else b.

(** How one call [f()] of a caller-supplied function completes: it returns a
    plain value, throws synchronously, or returns a promise that is later
    fulfilled or rejected. *)
Inductive Completion :=
| Returns (v : value)
| Throws (e : Error)
| Resolves (v : value)
| Rejects (e : Error).

(** How the promise of an [async] function settles. *)
Inductive Settled :=
| Fulfilled (v : value)
| Rejected (reason : value).

(** [try { x = await f() } catch (error) { ... }]: the value bound to [x], or
    the error bound to [error]. *)
Definition awaited (c : Completion) : value + Error :=
  match c with
  | Returns v | Resolves v => inl v
  | Throws e | Rejects e => inr e
  end.

(** [return f()] in an [async] function, outside any [try]. *)
Definition returned (c : Completion) : Settled :=
  match c with
  | Returns v | Resolves v => Fulfilled v
  | Throws e | Rejects e => Rejected (VErr e)
  end.

Definition failed (c : Completion) : Prop :=
  match c with
  | Throws _ | Rejects _ => True
  | Returns _ | Resolves _ => False
  end.

(** ** Strings: [toLowerCase] and [includes] (ASCII) *)

Definition lower_ascii (c : ascii) : ascii :=
  let n := nat_of_ascii c in
  if ((65 <=? n) && (n <=? 90))%nat then ascii_of_nat (n + 32) else c.

Fixpoint toLowerCase (s : string) : string :=
  match s with
  | EmptyString => EmptyString
  | String c s' => String (lower_ascii c) (toLowerCase s')
  end.

Fixpoint includes (s pattern : string) : bool :=
  if String.prefix pattern s then true
  else match s with
       | EmptyString => false
       | String _ s' => includes s' pattern
       end.

(** * CircuitBreaker *)

Module Breaker.

Inductive CircuitState := CLOSED | OPEN | HALF_OPEN.

Definition state_name (s : CircuitState) : string :=
  match s with
  | CLOSED => "CLOSED"
  | OPEN => "OPEN"
  | HALF_OPEN => "HALF_OPEN"
  end.

Record Stats := {
  totalRequests : Z;
  totalFailures : Z;
  totalFallbacks : Z
}.

Section WithWorld.

(** Everything outside the breaker that the wrapped operation and the
    fallback can read or change, including the wall clock. *)
Variable World : Type.
Variable Date_now : World -> Z.

Definition Callback := World -> Completion * World.

(** The world together with a call counter: [calls] is bumped each time the
    expression [operation()] is evaluated. *)
Record Env := { world : World; calls : nat }.

Definition invoke (operation : Callback) (env : Env) : Completion * Env :=
  let (c, w) := operation (world env) in
  (c, {| world := w; calls := S (calls env) |}).

Definition invoke_fallback (fallback : Callback) (env : Env) : Completion * Env :=
  let (c, w) := fallback (world env) in
  (c, {| world := w; calls := calls env |}).

Record CircuitBreaker := {
  failureThreshold : Z;
  resetTimeout : Z;
  monitoringPeriod : Z;
  fallback : Callback;
  state : CircuitState;
  failureCount : Z;
  lastFailureTime : option Z;     (* [None] is [null] *)
  successCount : Z;
  stats : Stats
}.

Record Options := {
  opt_failureThreshold : option Z;
  opt_resetTimeout : option Z;
  opt_monitoringPeriod : option Z;
  opt_fallback : option Callback
}.

(** [x || d] for an optional number: [undefined] and [0] give [d]. *)
Definition num_or (x : option Z) (d : Z) : Z :=
  match x with
  | Some n => if n =? 0 then d else n
  | None => d
  end.

Definition constructor (options : Options) : CircuitBreaker :=
  {| failureThreshold := num_or (opt_failureThreshold options) 5;
     resetTimeout := num_or (opt_resetTimeout options) 30000;
     monitoringPeriod := num_or (opt_monitoringPeriod options) 60000;
     fallback := match opt_fallback options with
                 | Some f => f
                 | None => fun w => (Returns VNull, w)
                 end;
     state := CLOSED;
     failureCount := 0;
     lastFailureTime := None;
     successCount := 0;
     stats := {| totalRequests := 0; totalFailures := 0; totalFallbacks := 0 |} |}.

(** Field updates. *)
Definition set_state (s : CircuitState) (cb : CircuitBreaker) : CircuitBreaker :=
  {| failureThreshold := failureThreshold cb; resetTimeout := resetTimeout cb;
     monitoringPeriod := monitoringPeriod cb; fallback := fallback cb;
     state := s; failureCount := failureCount cb;
     lastFailureTime := lastFailureTime cb; successCount := successCount cb;
     stats := stats cb |}.

Definition set_failureCount (n : Z) (cb : CircuitBreaker) : CircuitBreaker :=
  {| failureThreshold := failureThreshold cb; resetTimeout := resetTimeout cb;
     monitoringPeriod := monitoringPeriod cb; fallback := fallback cb;
     state := state cb; failureCount := n;
     lastFailureTime := lastFailureTime cb; successCount := successCount cb;
     stats := stats cb |}.

Definition set_lastFailureTime (t : option Z) (cb : CircuitBreaker) : CircuitBreaker :=
  {| failureThreshold := failureThreshold cb; resetTimeout := resetTimeout cb;
     monitoringPeriod := monitoringPeriod cb; fallback := fallback cb;
     state := state cb; failureCount := failureCount cb;
     lastFailureTime := t; successCount := successCount cb;
     stats := stats cb |}.

Definition set_successCount (n : Z) (cb : CircuitBreaker) : CircuitBreaker :=
  {| failureThreshold := failureThreshold cb; resetTimeout := resetTimeout cb;
     monitoringPeriod := monitoringPeriod cb; fallback := fallback cb;
     state := state cb; failureCount := failureCount cb;
     lastFailureTime := lastFailureTime cb; successCount := n;
     stats := stats cb |}.

Definition set_stats (s : Stats) (cb : CircuitBreaker) : CircuitBreaker :=
  {| failureThreshold := failureThreshold cb; resetTimeout := resetTimeout cb;
     monitoringPeriod := monitoringPeriod cb; fallback := fallback cb;
     state := state cb; failureCount := failureCount cb;
     lastFailureTime := lastFailureTime cb; successCount := successCount cb;
     stats := s |}.

Definition bump_totalRequests (cb : CircuitBreaker) : CircuitBreaker :=
  set_stats {| totalRequests := totalRequests (stats cb) + 1;
               totalFailures := totalFailures (stats cb);
               totalFallbacks := totalFallbacks (stats cb) |} cb.

Definition bump_totalFailures (cb : CircuitBreaker) : CircuitBreaker :=
  set_stats {| totalRequests := totalRequests (stats cb);
               totalFailures := totalFailures (stats cb) + 1;
               totalFallbacks := totalFallbacks (stats cb) |} cb.

Definition bump_totalFallbacks (cb : CircuitBreaker) : CircuitBreaker :=
  set_stats {| totalRequests := totalRequests (stats cb);
               totalFailures := totalFailures (stats cb);
               totalFallbacks := totalFallbacks (stats cb) + 1 |} cb.

Definition onSuccess (cb : CircuitBreaker) : CircuitBreaker :=
  let cb := set_failureCount 0 cb in
  match state cb with
  | HALF_OPEN =>
      let cb := set_successCount (successCount cb + 1) cb in
      if 3 <=? successCount cb then set_state CLOSED cb else cb
  | _ => cb
  end.

Definition onFailure (now : Z) (cb : CircuitBreaker) : CircuitBreaker :=
  let cb := set_failureCount (failureCount cb + 1) cb in
  let cb := set_lastFailureTime (Some now) cb in
  let cb := bump_totalFailures cb in
  if failureThreshold cb <=? failureCount cb then set_state OPEN cb else cb.

Definition quotaErrors : list string :=
  [ "quota exceeded"; "rate limit"; "too many requests";
    "service unavailable"; "timeout" ]%string.

Definition shouldUseFallback (error : Error) : bool :=
  existsb (fun pattern => includes (toLowerCase (message error)) pattern) quotaErrors.

(** [Date.now() - this.lastFailureTime]; [null] converts to [0]. *)
Definition elapsed (now : Z) (cb : CircuitBreaker) : Z :=
  now - match lastFailureTime cb with Some t => t | None => 0 end.

(** The [try]/[catch] part of [fire]. *)
Definition fire_call (cb : CircuitBreaker) (operation : Callback) (env : Env)
  : Settled * CircuitBreaker * Env :=
  let (c, env) := invoke operation env in
  match awaited c with
  | inl result => (Fulfilled result, onSuccess cb, env)
  | inr error =>
      let cb := onFailure (Date_now (world env)) cb in
      if shouldUseFallback error then
        let cb := bump_totalFallbacks cb in
        let (f, env) := invoke_fallback (fallback cb) env in
        (returned f, cb, env)
      else (Rejected (VErr error), cb, env)
  end.

Definition fire (cb : CircuitBreaker) (operation : Callback) (env : Env)
  : Settled * CircuitBreaker * Env :=
  let cb := bump_totalRequests cb in
  match state cb with
  | OPEN =>
      if resetTimeout cb <=? elapsed (Date_now (world env)) cb then
        let cb := set_state HALF_OPEN cb in
        let cb := set_successCount 0 cb in
        fire_call cb operation env
      else
        let cb := bump_totalFallbacks cb in
        let (f, env) := invoke_fallback (fallback cb) env in
        (returned f, cb, env)
  | _ => fire_call cb operation env
  end.

(** [getStats()] without the two derived percentage strings. *)
Record StatsView := {
  view_totalRequests : Z;
  view_totalFailures : Z;
  view_totalFallbacks : Z;
  view_state : string;
  view_failureCount : Z
}.

Definition getStats (cb : CircuitBreaker) : StatsView :=
  {| view_totalRequests := totalRequests (stats cb);
     view_totalFailures := totalFailures (stats cb);
     view_totalFallbacks := totalFallbacks (stats cb);
     view_state := state_name (state cb);
     view_failureCount := failureCount cb |}.

Definition reset (cb : CircuitBreaker) : CircuitBreaker :=
  let cb := set_state CLOSED cb in
  let cb := set_failureCount 0 cb in
  let cb := set_lastFailureTime None cb in
  set_successCount 0 cb.

(** The breaker that a call of [fire] (or a run of calls) leaves behind. *)
Definition breaker_of {A : Type} (x : A * CircuitBreaker * Env) : CircuitBreaker :=
  snd (fst x).

(** Successive calls of [fire], one per operation of the list, the world
    handed from each call to the next. *)
Fixpoint fire_each (cb : CircuitBreaker) (operations : list Callback) (env : Env)
  : list Settled * CircuitBreaker * Env :=
  match operations with
  | [] => ([], cb, env)
  | operation :: rest =>
      let '(r, cb1, env1) := fire cb operation env in
      let '(rs, cb2, env2) := fire_each cb1 rest env1 in
      (r :: rs, cb2, env2)
  end.

(** [failed_calls n cb env cb' env']: starting from [cb] and [env], [n]
    calls of [fire] were made, each with an operation that fails in the
    world [w] it is called in (between two calls the world may have changed
    in any way), and they lead to [cb'] and [env']. *)
Inductive failed_calls : nat -> CircuitBreaker -> Env -> CircuitBreaker -> Env -> Prop :=
| failed_calls_O cb env : failed_calls O cb env cb env
| failed_calls_S n cb env cb1 env1 operation w r cb2 env2 :
    failed_calls n cb env cb1 env1 ->
    failed (fst (operation w)) ->
    fire cb1 operation {| world := w; calls := calls env1 |} = (r, cb2, env2) ->
    failed_calls (S n) cb env cb2 env2.

End WithWorld.

Arguments Callback World : clear implicits.
Arguments Env World : clear implicits.
Arguments CircuitBreaker World : clear implicits.
Arguments Options World : clear implicits.
Arguments world {World} _.
Arguments calls {World} _.
Arguments failureThreshold {World} _.
Arguments resetTimeout {World} _.
Arguments monitoringPeriod {World} _.
Arguments fallback {World} _.
Arguments state {World} _.
Arguments failureCount {World} _.
Arguments lastFailureTime {World} _.
Arguments successCount {World} _.
Arguments stats {World} _.
Arguments invoke {World} operation env.
Arguments invoke_fallback {World} fallback env.
Arguments constructor {World} options.
Arguments onSuccess {World} cb.
Arguments onFailure {World} now cb.
Arguments elapsed {World} now cb.
Arguments fire_call {World} Date_now cb operation env.
Arguments fire {World} Date_now cb operation env.
Arguments getStats {World} cb.
Arguments reset {World} cb.
Arguments set_state {World} s cb.
Arguments set_failureCount {World} n cb.
Arguments set_lastFailureTime {World} t cb.
Arguments set_successCount {World} n cb.
Arguments set_stats {World} s cb.
Arguments bump_totalRequests {World} cb.
Arguments bump_totalFailures {World} cb.
Arguments bump_totalFallbacks {World} cb.
Arguments breaker_of {World A} x.
Arguments fire_each {World} Date_now cb operations env.
Arguments failed_calls {World} Date_now n cb env cb' env'.

End Breaker.

(** * FreeTierRateLimiter *)

Module Limiter.

Record Quota := { used : Z; limit : Z; resetTime : Z }.

Record Alerts := { warningThreshold : Q; criticalThreshold : Q }.

Record FreeTierRateLimiter := {
  quotas : gmap string Quota;
  alerts : Alerts
}.

(** The result of the division [quota.used / quota.limit].  On the integers
    the code divides, the comparison of the double quotient with the double
    [0.95] (or [0.8]) agrees with the comparison of the exact quotient for
    every limit below 10^14, so the quotient is kept exact. *)
Inductive ratio :=
| Finite (q : Q)
| PlusInfinity
| MinusInfinity
| NaN.

Definition js_div (a b : Z) : ratio :=
  if b =? 0 then
    if a =? 0 then NaN else if 0 <? a then PlusInfinity else MinusInfinity
  else Finite (inject_Z a / inject_Z b).

(** [r >= t] for a finite threshold [t]. *)
Definition ratio_ge (r : ratio) (t : Q) : bool :=
  match r with
  | Finite q => Qle_bool t q
  | PlusInfinity => true
  | MinusInfinity | NaN => false
  end.

(** The two errors [checkQuota] throws.  The message of the first is
    "Unknown service: <service>", that of the second
    "Critical quota usage for <service>: <usagePercent * 100, one decimal>%". *)
Inductive QuotaError :=
| UnknownService (service : string)
| CriticalQuotaUsage (service : string) (usagePercent : ratio).

Inductive CheckResult :=
| Ok                      (* resolves with [true] *)
| Throw (e : QuotaError).

(** The property names that every object inherits from [Object.prototype]:
    for these [this.quotas[service]] is a member of the prototype (a
    function, or the prototype itself for "__proto__"), not [undefined],
    also when the limiter holds no resource of that name. *)
Definition Object_prototype_keys : list string :=
  [ "constructor"; "__defineGetter__"; "__defineSetter__"; "hasOwnProperty";
    "__lookupGetter__"; "__lookupSetter__"; "isPrototypeOf";
    "propertyIsEnumerable"; "toString"; "valueOf"; "__proto__";
    "toLocaleString" ]%string.

Definition inherited (service : string) : bool :=
  existsb (String.eqb service) Object_prototype_keys.

Section WithCalendar.

(** [getTomorrowMidnight()] evaluated at instant [now]: the next local
    midnight, which depends on the time zone of the host. *)
Variable getTomorrowMidnight : Z -> Z.

Definition constructor (now : Z) : FreeTierRateLimiter :=
  {| quotas :=
       <["d1Reads" := {| used := 0; limit := 90000; resetTime := getTomorrowMidnight now |}]>
      (<["d1Writes" := {| used := 0; limit := 90000; resetTime := getTomorrowMidnight now |}]>
      (<["workerRequests" := {| used := 0; limit := 90000; resetTime := getTomorrowMidnight now |}]>
      (<["railwayRequests" := {| used := 0; limit := 100000; resetTime := getTomorrowMidnight now |}]>
       ∅)));
     alerts := {| warningThreshold := 8 # 10; criticalThreshold := 95 # 100 |} |}.

Definition resetQuotasIfNeeded (now : Z) (rl : FreeTierRateLimiter) : FreeTierRateLimiter :=
  {| quotas :=
       (fun quota =>
          if resetTime quota <=? now
          then {| used := 0; limit := limit quota;
                  resetTime := getTomorrowMidnight now |}
          else quota) <$> quotas rl;
     alerts := alerts rl |}.

(** [this.quotas[service]] is looked up among the resources the limiter
    holds and then among the inherited members.  An inherited member has
    neither [used] nor [limit]: the quotient of the two [undefined] is [NaN],
    which reaches no threshold, and [quota.used++] writes to that member, not
    to a resource of the limiter. *)
Definition checkQuota (service : string) (now : Z) (rl : FreeTierRateLimiter)
  : CheckResult * FreeTierRateLimiter :=
  let rl := resetQuotasIfNeeded now rl in
  match quotas rl !! service with
  | None =>
      if inherited service then
        let usagePercent := NaN in
        if ratio_ge usagePercent (criticalThreshold (alerts rl)) then
          (Throw (CriticalQuotaUsage service usagePercent), rl)
        else (Ok, rl)
      else (Throw (UnknownService service), rl)
  | Some quota =>
      let usagePercent := js_div (used quota) (limit quota) in
      if ratio_ge usagePercent (criticalThreshold (alerts rl)) then
        (Throw (CriticalQuotaUsage service usagePercent), rl)
      else
        (Ok, {| quotas := <[service := {| used := used quota + 1;
                                          limit := limit quota;
                                          resetTime := resetTime quota |}]> (quotas rl);
                alerts := alerts rl |})
  end.

(** Successive calls [checkQuota(service)] at the instants [times]. *)
Fixpoint checkQuota_each (service : string) (times : list Z) (rl : FreeTierRateLimiter)
  : list CheckResult * FreeTierRateLimiter :=
  match times with
  | [] => ([], rl)
  | now :: times' =>
      let (r, rl1) := checkQuota service now rl in
      let (rs, rl2) := checkQuota_each service times' rl1 in
      (r :: rs, rl2)
  end.

Record UsageStats := {
  stat_used : Z;
  stat_limit : Z;
  stat_percentage : ratio;      (* [used / limit], before [* 100] and [toFixed(1)] *)
  stat_remaining : Z;
  stat_resetIn : Z
}.

Definition getUsageStats (now : Z) (rl : FreeTierRateLimiter)
  : gmap string UsageStats * FreeTierRateLimiter :=
  let rl := resetQuotasIfNeeded now rl in
  ((fun quota =>
      {| stat_used := used quota;
         stat_limit := limit quota;
         stat_percentage := js_div (used quota) (limit quota);
         stat_remaining := limit quota - used quota;
         stat_resetIn := Z.max 0 (resetTime quota - now) |}) <$> quotas rl,
   rl).

End WithCalendar.

(** 95% of [limit] rounded down and rounded up. *)
Definition floor_95 (limit : Z) : Z := 19 * limit / 20.
Definition ceil_95 (limit : Z) : Z := (19 * limit + 19) / 20.

End Limiter.

(** * GracefulDegradationManager *)

Module Degradation.

Definition NORMAL : Z := 0.
Definition REDUCED : Z := 1.
Definition MINIMAL : Z := 2.
Definition EMERGENCY : Z := 3.

Record CacheEntry := { data : value; expires : Z }.

Record GracefulDegradationManager := {
  currentLevel : Z;
  cache : gmap string CacheEntry
}.

Definition constructor : GracefulDegradationManager :=
  {| currentLevel := NORMAL; cache := ∅ |}.

Definition setDegradationLevel (level : Z) (reason : string)
    (m : GracefulDegradationManager) : GracefulDegradationManager :=
  if negb (currentLevel m =? level)
  then {| currentLevel := level; cache := cache m |}
  else m.

(** [ttl] is [None] when the argument is left out (default 300000). *)
Definition setCachedResult (key : string) (d : value) (ttl : option Z) (now : Z)
    (m : GracefulDegradationManager) : GracefulDegradationManager :=
  {| currentLevel := currentLevel m;
     cache := <[key := {| data := d; expires := now + default 300000 ttl |}]> (cache m) |}.

Definition getCachedResult (key : string) (now : Z) (m : GracefulDegradationManager)
    : value * GracefulDegradationManager :=
  let evicted := {| currentLevel := currentLevel m; cache := delete key (cache m) |} in
  match cache m !! key with
  | Some cached => if now <? expires cached then (data cached, m) else (VNull, evicted)
  | None => (VNull, evicted)
  end.

Definition level_names : list string := ["NORMAL"; "REDUCED"; "MINIMAL"; "EMERGENCY"]%string.

Definition getDegradationDescription (m : GracefulDegradationManager) : string :=
  if currentLevel m =? NORMAL then "All features operating normally"
  else if currentLevel m =? REDUCED then
    "Some advanced features disabled to preserve core functionality"
  else if currentLevel m =? MINIMAL then
    "Only essential features available, using cached data where possible"
  else if currentLevel m =? EMERGENCY then "Emergency mode - cached responses only"
  else "Unknown degradation level".

Record Status := {
  status_level : option string;     (* [None] is [undefined] *)
  status_cacheSize : nat;
  status_description : string
}.

Definition getStatus (m : GracefulDegradationManager) : Status :=
  {| status_level := if currentLevel m <? 0 then None
                     else level_names !! Z.to_nat (currentLevel m);
     status_cacheSize := size (cache m);
     status_description := getDegradationDescription m |}.

Inductive VariantName := Full | Reduced | Minimal.

(** What the [try] block of [executeWithDegradation] does: the function
    returns (its promise settling as given), or an error reaches [catch]. *)
Inductive TryOutcome :=
| Completed (s : Settled)
| Caught (error : Error).

(** The [TypeError] of calling a property that is not a function. *)
Definition not_a_function : Error :=
  {| ref := 0; message := "operation.full is not a function" |}.

Section WithWorld.

Variable World : Type.
Variable Date_now : World -> Z.

(** In this section a variant is a callback of the world alone: it leaves
    the manager that runs it alone.  Variants that read or change the
    manager are the subject of [SharedDegradation] below. *)
Definition Callback := World -> Completion * World.

Record Operation := {
  full : option Callback;
  reduced : option Callback;
  minimal : option Callback;
  cacheKey : string
}.

Record FallbackOptions := { emergency : value }.

(** The world and the log of the variants invoked so far, latest first. *)
Record Env := { world : World; invoked : list VariantName }.

(** [operation.full()] *)
Definition call (name : VariantName) (f : option Callback) (env : Env)
  : Completion * Env :=
  match f with
  | Some g => let (c, w) := g (world env) in
              (c, {| world := w; invoked := name :: invoked env |})
  | None => (Throws not_a_function, env)
  end.

(** [operation.reduced?.()] *)
Definition optional_call (name : VariantName) (f : option Callback) (env : Env)
  : Completion * Env :=
  match f with
  | Some _ => call name f env
  | None => (Returns VUndefined, env)
  end.

(** [return await c] inside [try]. *)
Definition return_await (c : Completion) : TryOutcome :=
  match awaited c with
  | inl v => Completed (Fulfilled v)
  | inr error => Caught error
  end.

(** [return c] inside [try], not awaited: a synchronous throw is caught,
    a rejected promise is handed to the caller as it is. *)
Definition return_plain (c : Completion) : TryOutcome :=
  match c with
  | Returns v | Resolves v => Completed (Fulfilled v)
  | Throws error => Caught error
  | Rejects error => Completed (Rejected (VErr error))
  end.

(** The [switch] inside [try]. *)
Definition dispatch (m : GracefulDegradationManager) (operation : Operation)
    (fallbackOptions : FallbackOptions) (env : Env)
  : TryOutcome * GracefulDegradationManager * Env :=
  if currentLevel m =? NORMAL then
    let (c, env) := call Full (full operation) env in
    (return_await c, m, env)
  else if currentLevel m =? REDUCED then
    let (c, env) := optional_call Reduced (reduced operation) env in
    match awaited c with
    | inr error => (Caught error, m, env)
    | inl v =>
        if truthy v then (Completed (Fulfilled v), m, env)
        else let (c, env) := call Full (full operation) env in
             (return_plain c, m, env)
    end
  else if currentLevel m =? MINIMAL then
    let (c, env) := optional_call Minimal (minimal operation) env in
    match awaited c with
    | inr error => (Caught error, m, env)
    | inl v =>
        if truthy v then (Completed (Fulfilled v), m, env)
        else let (r, m) := getCachedResult (cacheKey operation) (Date_now (world env)) m in
             (Completed (Fulfilled r), m, env)
    end
  else if currentLevel m =? EMERGENCY then
    let (r, m) := getCachedResult (cacheKey operation) (Date_now (world env)) m in
    (Completed (Fulfilled (js_or r (emergency fallbackOptions))), m, env)
  else
    let (c, env) := call Full (full operation) env in
    (return_await c, m, env).

(** [executeWithDegradation], the recursion in [catch] counted down by
    [fuel]. *)
Fixpoint execute (fuel : nat) (m : GracefulDegradationManager)
    (operation : Operation) (fallbackOptions : FallbackOptions) (env : Env)
  : option (Settled * GracefulDegradationManager * Env) :=
  match fuel with
  | O => None
  | S fuel' =>
      match dispatch m operation fallbackOptions env with
      | (Completed s, m, env) => Some (s, m, env)
      | (Caught error, m, env) =>
          if currentLevel m <? EMERGENCY then
            let m := setDegradationLevel (currentLevel m + 1)
                       ("Error: " ++ message error) m in
            execute fuel' m operation fallbackOptions env
          else Some (Rejected (VErr error), m, env)
      end
  end.

Definition executeWithDegradation (m : GracefulDegradationManager)
    (operation : Operation) (fallbackOptions : FallbackOptions) (env : Env)
  : option (Settled * GracefulDegradationManager * Env) :=
  execute (S (Z.to_nat (EMERGENCY - currentLevel m))) m operation fallbackOptions env.

End WithWorld.

Arguments Callback World : clear implicits.
Arguments Operation World : clear implicits.
Arguments Env World : clear implicits.
Arguments full {World} _.
Arguments reduced {World} _.
Arguments minimal {World} _.
Arguments cacheKey {World} _.
Arguments world {World} _.
Arguments invoked {World} _.
Arguments call {World} name f env.
Arguments optional_call {World} name f env.
Arguments dispatch {World} Date_now m operation fallbackOptions env.
Arguments execute {World} Date_now fuel m operation fallbackOptions env.
Arguments executeWithDegradation {World} Date_now m operation fallbackOptions env.

End Degradation.

(** * retryWithBackoff *)

Module Retry.

Record Options := {
  maxRetries : option Z;
  baseDelay : option Q;
  maxDelay : option Q;
  backoffFactor : option Q;
  retryCondition : option (Error -> bool)
}.

(** What a run has done so far: how often [operation()] was called, the
    delays slept (latest first), and [lastError] ([None]: never assigned).
    The delays are written as exact rationals; the code computes them in
    doubles, whose last place can differ, and the statements about runs
    count the delays without depending on their values. *)
Record Run := {
  calls : nat;
  sleeps : list Q;
  lastError : option Error
}.

Section WithOperation.

(** [operation k] is how the call number [k] (from 0) of the operation
    completes; [random k] is the result of call number [k] of
    [Math.random()]. *)
Variable operation : nat -> Completion.
Variable random : nat -> Q.

(** [lastError], once assigned, is the error of the latest call. *)
Definition lastError_latest (run : Run) : Prop :=
  match lastError run with
  | Some error => exists k, calls run = S k /\ awaited (operation k) = inr error
  | None => calls run = O
  end.

Section Loop.

Variable max_retries : Z.
Variable base_delay max_delay backoff_factor : Q.
Variable retry_condition : Error -> bool.

(** The [for] loop from [attempt] on; [fuel] bounds the iterations. *)
Fixpoint loop (fuel : nat) (attempt : Z) (run : Run) : option (Settled * Run) :=
  match fuel with
  | O => None
  | S fuel' =>
      if attempt <=? max_retries then
        let c := operation (calls run) in
        match awaited c with
        | inl v =>
            Some (Fulfilled v,
                  {| calls := S (calls run); sleeps := sleeps run;
                     lastError := lastError run |})
        | inr error =>
            if (attempt =? max_retries) || negb (retry_condition error) then
              Some (Rejected (VErr error),
                    {| calls := S (calls run); sleeps := sleeps run;
                       lastError := Some error |})
            else
              let delay := Qmin (base_delay * Qpower backoff_factor attempt) max_delay in
              let jitter := (random (length (sleeps run)) * (1 # 10) * delay)%Q in
              let totalDelay := (delay + jitter)%Q in
              loop fuel' (attempt + 1)
                   {| calls := S (calls run); sleeps := totalDelay :: sleeps run;
                      lastError := Some error |}
        end
      else
        Some (Rejected (match lastError run with
                        | Some error => VErr error
                        | None => VUndefined
                        end), run)
  end.

End Loop.

Definition retryWithBackoff (options : Options) : option (Settled * Run) :=
  let max_retries := default 3 (maxRetries options) in
  loop max_retries
       (default 1000%Q (baseDelay options))
       (default 10000%Q (maxDelay options))
       (default 2%Q (backoffFactor options))
       (default (fun _ => true) (retryCondition options))
       (S (Z.to_nat (max_retries + 1))) 0
       {| calls := 0; sleeps := []; lastError := None |}.

End WithOperation.

End Retry.

(** * The degradation manager with variants that reach the manager

    The variants handed to [executeWithDegradation] are closures, and those
    of DataServiceClient.js call [setCachedResult], [getCachedResult] and
    [setDegradationLevel] on the very manager that is running them.  Here a
    variant takes and returns the manager together with the world, and
    [executeWithDegradation] reads [this.currentLevel] and [this.cache] again
    after each variant.  The recursion in [catch] can then go on for ever:
    [fuel] bounds it, and [None] says that the call has not settled within
    [fuel] runs of the [try] block. *)

Module SharedDegradation.

Import Degradation.

Section WithWorld.

Variable World : Type.
Variable Date_now : World -> Z.

Definition Variant : Type :=
  GracefulDegradationManager * World -> Completion * (GracefulDegradationManager * World).

Record Operation := {
  full : option Variant;
  reduced : option Variant;
  minimal : option Variant;
  cacheKey : string
}.

(** The manager, the world and the log of the variants invoked so far,
    latest first. *)
Record State := {
  manager : GracefulDegradationManager;
  world : World;
  invoked : list VariantName
}.

Definition with_manager (m : GracefulDegradationManager) (st : State) : State :=
  {| manager := m; world := world st; invoked := invoked st |}.

(** [operation.full()] *)
Definition call (name : VariantName) (f : option Variant) (st : State)
  : Completion * State :=
  match f with
  | Some g => let '(c, (m, w)) := g (manager st, world st) in
              (c, {| manager := m; world := w; invoked := name :: invoked st |})
  | None => (Throws not_a_function, st)
  end.

(** [operation.reduced?.()] *)
Definition optional_call (name : VariantName) (f : option Variant) (st : State)
  : Completion * State :=
  match f with
  | Some _ => call name f st
  | None => (Returns VUndefined, st)
  end.

(** The [switch] inside [try]; [this.currentLevel] is read once, before any
    variant runs. *)
Definition dispatch (operation : Operation) (fallbackOptions : FallbackOptions)
    (st : State) : TryOutcome * State :=
  let level := currentLevel (manager st) in
  if level =? NORMAL then
    let (c, st) := call Full (full operation) st in
    (return_await c, st)
  else if level =? REDUCED then
    let (c, st) := optional_call Reduced (reduced operation) st in
    match awaited c with
    | inr error => (Caught error, st)
    | inl v =>
        if truthy v then (Completed (Fulfilled v), st)
        else let (c, st) := call Full (full operation) st in
             (return_plain c, st)
    end
  else if level =? MINIMAL then
    let (c, st) := optional_call Minimal (minimal operation) st in
    match awaited c with
    | inr error => (Caught error, st)
    | inl v =>
        if truthy v then (Completed (Fulfilled v), st)
        else let (r, m) := getCachedResult (cacheKey operation) (Date_now (world st))
                             (manager st) in
             (Completed (Fulfilled r), with_manager m st)
    end
  else if level =? EMERGENCY then
    let (r, m) := getCachedResult (cacheKey operation) (Date_now (world st))
                    (manager st) in
    (Completed (Fulfilled (js_or r (emergency fallbackOptions))), with_manager m st)
  else
    let (c, st) := call Full (full operation) st in
    (return_await c, st).

(** [executeWithDegradation]; the [catch] block reads [this.currentLevel] as
    the variant left it. *)
Fixpoint executeWithDegradation (fuel : nat) (operation : Operation)
    (fallbackOptions : FallbackOptions) (st : State) : option (Settled * State) :=
  match fuel with
  | O => None
  | S fuel' =>
      match dispatch operation fallbackOptions st with
      | (Completed s, st) => Some (s, st)
      | (Caught error, st) =>
          if currentLevel (manager st) <? EMERGENCY then
            let m := setDegradationLevel (currentLevel (manager st) + 1)
                       ("Error: " ++ message error) (manager st) in
            executeWithDegradation fuel' operation fallbackOptions (with_manager m st)
          else Some (Rejected (VErr error), st)
      end
  end.

(** What a variant may do to the manager. *)
Definition keeps_manager (f : Variant) : Prop :=
  forall m w, fst (snd (f (m, w))) = m.

Definition keeps_level (f : Variant) : Prop :=
  forall m w, currentLevel (fst (snd (f (m, w)))) = currentLevel m.

Definition variants_keep_level (operation : Operation) : Prop :=
  forall f,
    full operation = Some f \/ reduced operation = Some f \/ minimal operation = Some f ->
    keeps_level f.

(** A variant that, like [getUsersForCampaignFull] on a quota or limit
    error, calls [setDegradationLevel(1, ...)] and then throws. *)
Definition sets_reduced_and_fails (f : Variant) : Prop :=
  forall m w,
    failed (fst (f (m, w))) /\ currentLevel (fst (snd (f (m, w)))) = REDUCED.

(** The variants of the section [Degradation.WithWorld] as variants here:
    the manager is handed back as it came. *)
Definition lift (f : Degradation.Callback World) : Variant :=
  fun '(m, w) => let (c, w') := f w in (c, (m, w')).

Definition lift_operation (operation : Degradation.Operation World) : Operation :=
  {| full := lift <$> Degradation.full operation;
     reduced := lift <$> Degradation.reduced operation;
     minimal := lift <$> Degradation.minimal operation;
     cacheKey := Degradation.cacheKey operation |}.

Definition pack (m : GracefulDegradationManager) (env : Degradation.Env World) : State :=
  {| manager := m; world := Degradation.world env;
     invoked := Degradation.invoked env |}.

End WithWorld.

Arguments Variant World : clear implicits.
Arguments Operation World : clear implicits.
Arguments State World : clear implicits.
Arguments full {World} _.
Arguments reduced {World} _.
Arguments minimal {World} _.
Arguments cacheKey {World} _.
Arguments manager {World} _.
Arguments world {World} _.
Arguments invoked {World} _.
Arguments with_manager {World} m st.
Arguments call {World} name f st.
Arguments optional_call {World} name f st.
Arguments dispatch {World} Date_now operation fallbackOptions st.
Arguments executeWithDegradation {World} Date_now fuel operation fallbackOptions st.
Arguments keeps_manager {World} f.
Arguments keeps_level {World} f.
Arguments variants_keep_level {World} operation.
Arguments sets_reduced_and_fails {World} f.
Arguments lift {World} f.
Arguments lift_operation {World} operation.
Arguments pack {World} m env.

End SharedDegradation.

(** * Concrete worlds, callbacks and states used in the examples *)

Module Samples.

(** A world that is just the clock, in milliseconds. *)
Definition Clock : Type := Z.
Definition read_clock (w : Clock) : Z := w.

Definition boom : Error := {| ref := 1; message := "boom" |}.
Definition timeout_error : Error := {| ref := 2; message := "Request Timeout" |}.

(** An operation that rejects with [e], the clock reading [t] afterwards. *)
Definition rejecting (e : Error) (t : Z) : Breaker.Callback Clock :=
  fun _ => (Rejects e, t).

(** An operation that resolves with [v], the clock reading [t] afterwards. *)
Definition resolving (v : value) (t : Z) : Breaker.Callback Clock :=
  fun _ => (Resolves v, t).

Definition default_options : Breaker.Options Clock :=
  {| Breaker.opt_failureThreshold := None; Breaker.opt_resetTimeout := None;
     Breaker.opt_monitoringPeriod := None; Breaker.opt_fallback := None |}.

Definition start : Breaker.Env Clock := {| Breaker.world := 0; Breaker.calls := 0 |}.

(** Five failures open the default breaker at instant 5. *)
Definition five_failures : list (Breaker.Callback Clock) :=
  [ rejecting boom 1; rejecting boom 2; rejecting boom 3; rejecting boom 4;
    rejecting boom 5 ].

Definition opened_breaker : Breaker.CircuitBreaker Clock :=
  Breaker.breaker_of
    (Breaker.fire_each read_clock (Breaker.constructor default_options) five_failures start).

Definition opened_env : Breaker.Env Clock :=
  snd (Breaker.fire_each read_clock (Breaker.constructor default_options) five_failures start).

(** The next call, made at instant 40000 (after the reset timeout),
    succeeds and leaves the breaker half open. *)
Definition half_open_run :=
  Breaker.fire read_clock opened_breaker (resolving (VNum 7) 40001)
    {| Breaker.world := 40000; Breaker.calls := Breaker.calls opened_env |}.

Definition half_open_breaker : Breaker.CircuitBreaker Clock := snd (fst half_open_run).
Definition half_open_env : Breaker.Env Clock := snd half_open_run.

(** A breaker with threshold 1: one failure opens it at instant 1, and a
    success at instant 40000 leaves it half open. *)
Definition strict_options : Breaker.Options Clock :=
  {| Breaker.opt_failureThreshold := Some 1; Breaker.opt_resetTimeout := None;
     Breaker.opt_monitoringPeriod := None; Breaker.opt_fallback := None |}.

Definition strict_half_open_run :=
  Breaker.fire read_clock
    (Breaker.breaker_of
       (Breaker.fire read_clock (Breaker.constructor strict_options)
          (rejecting boom 1) start))
    (resolving (VNum 7) 40001)
    {| Breaker.world := 40000; Breaker.calls := 1 |}.

Definition strict_half_open_breaker : Breaker.CircuitBreaker Clock :=
  Breaker.breaker_of strict_half_open_run.
Definition strict_half_open_env : Breaker.Env Clock := snd strict_half_open_run.

(** Midnight in a host whose local time is UTC. *)
Definition utc_midnight (now : Z) : Z := (now / 86400000 + 1) * 86400000.

Definition default_alerts : Limiter.Alerts :=
  {| Limiter.warningThreshold := 8 # 10; Limiter.criticalThreshold := 95 # 100 |}.

(** A limiter with one resource whose ceiling is 10. *)
Definition small_limiter : Limiter.FreeTierRateLimiter :=
  {| Limiter.quotas :=
       {[ "small"%string :=
            {| Limiter.used := 0; Limiter.limit := 10; Limiter.resetTime := 86400000 |} ]};
     Limiter.alerts := default_alerts |}.

(** 85500 checks, all at instant 5. *)
Definition day_of_checks : list Z := repeat 5 (Z.to_nat 85500).

(** Degradation: an operation set whose only variant, [full], is an async
    function that rejects with [boom]. *)
Definition only_full_rejecting : Degradation.Operation Clock :=
  {| Degradation.full := Some (fun w => (Rejects boom, w));
     Degradation.reduced := None;
     Degradation.minimal := None;
     Degradation.cacheKey := "users" |}.

(** An operation set without any variant. *)
Definition no_variants : Degradation.Operation Clock :=
  {| Degradation.full := None; Degradation.reduced := None;
     Degradation.minimal := None; Degradation.cacheKey := "users" |}.

Definition offline : Degradation.FallbackOptions :=
  {| Degradation.emergency := VStr "offline" |}.

Definition reduced_manager : Degradation.GracefulDegradationManager :=
  {| Degradation.currentLevel := Degradation.REDUCED; Degradation.cache := ∅ |}.

(** Emergency level, with the count 0 cached for "users" until instant 500. *)
Definition emergency_manager_zero : Degradation.GracefulDegradationManager :=
  Degradation.setCachedResult "users" (VNum 0) (Some 500) 0
    {| Degradation.currentLevel := Degradation.EMERGENCY; Degradation.cache := ∅ |}.

(** Emergency level, with an array cached for "users" until instant 500. *)
Definition emergency_manager_list : Degradation.GracefulDegradationManager :=
  Degradation.setCachedResult "users" (VObj 1) (Some 500) 0
    {| Degradation.currentLevel := Degradation.EMERGENCY; Degradation.cache := ∅ |}.

Definition quiet : Degradation.Env Clock :=
  {| Degradation.world := 100; Degradation.invoked := [] |}.

(** Retry: an operation whose first two calls reject (with two different
    errors) and whose later calls resolve with 42. *)
Definition first_error : Error := {| ref := 11; message := "ECONNRESET" |}.
Definition second_error : Error := {| ref := 12; message := "ECONNRESET" |}.

Definition twice_failing (k : nat) : Completion :=
  match k with
  | O => Rejects first_error
  | S O => Rejects second_error
  | _ => Resolves (VNum 42)
  end.

Definition no_jitter (k : nat) : Q := 0.

Definition no_options : Retry.Options :=
  {| Retry.maxRetries := None; Retry.baseDelay := None; Retry.maxDelay := None;
     Retry.backoffFactor := None; Retry.retryCondition := None |}.

Definition negative_retries : Retry.Options :=
  {| Retry.maxRetries := Some (-1); Retry.baseDelay := None; Retry.maxDelay := None;
     Retry.backoffFactor := None; Retry.retryCondition := None |}.

End Samples.

(** * Further definitions used in the statements below *)

Module BreakerInv.

Import Breaker.

(** What every breaker built by the constructor and driven through [fire]
    and [reset] satisfies: the counters are not negative, failures and
    fallbacks do not outnumber requests, and an open breaker has reached its
    threshold and has a last failure time. *)
Definition consistent {World : Type} (cb : CircuitBreaker World) : Prop :=
  0 <= failureCount cb
  /\ 0 <= successCount cb
  /\ 0 <= totalFailures (stats cb) <= totalRequests (stats cb)
  /\ 0 <= totalFallbacks (stats cb) <= totalRequests (stats cb)
  /\ (state cb = OPEN ->
      failureThreshold cb <= failureCount cb /\ lastFailureTime cb <> None).

(** An operation that fulfils, whatever the world it is called in. *)
Definition always_succeeds {World : Type} (operation : Callback World) : Prop :=
  forall w, exists v, awaited (fst (operation w)) = inl v.

End BreakerInv.

(** A callback that fails, whatever the world it is called in. *)
Definition always_fails {World : Type} (f : World -> Completion * World) : Prop :=
  forall w, failed (fst (f w)).

Module MoreSamples.

Import Samples.

(** A resolving operation that moves the clock on by one millisecond. *)
Definition ticking (v : value) : Breaker.Callback Clock :=
  fun w => (Resolves v, w + 1).

Definition three_probes : list (Breaker.Callback Clock) :=
  [ ticking (VNum 1); ticking (VNum 2); ticking (VNum 3) ].

Definition four_failures : list (Breaker.Callback Clock) :=
  [ rejecting boom 1; rejecting boom 2; rejecting boom 3; rejecting boom 4 ].

Definition rate_limited : Error := {| ref := 3; message := "429 Rate Limit hit" |}.

(** The default breaker after one successful call. *)
Definition after_success :=
  Breaker.fire read_clock (Breaker.constructor default_options) (ticking (VNum 1)) start.

Definition late : Breaker.Env Clock := {| Breaker.world := 40000; Breaker.calls := 5 |}.

(** The small limiter with its resource used up. *)
Definition exhausted_limiter : Limiter.FreeTierRateLimiter :=
  {| Limiter.quotas :=
       {[ "small"%string :=
            {| Limiter.used := 10; Limiter.limit := 10; Limiter.resetTime := 86400000 |} ]};
     Limiter.alerts := default_alerts |}.

(** A limiter with two resources. *)
Definition two_limiter : Limiter.FreeTierRateLimiter :=
  {| Limiter.quotas :=
       <["reads"%string :=
           {| Limiter.used := 3; Limiter.limit := 100; Limiter.resetTime := 86400000 |}]>
         {[ "writes"%string :=
              {| Limiter.used := 7; Limiter.limit := 40; Limiter.resetTime := 86400000 |} ]};
     Limiter.alerts := default_alerts |}.

(** Shared-manager variants: one that rejects and leaves the manager
    alone, one that resolves with an array, and one that, like
    [getUsersForCampaignFull] on a limit error, sets level 1 and rejects. *)
Definition plain_rejecting : SharedDegradation.Variant Clock :=
  fun '(m, w) => (Rejects boom, (m, w + 1)).

Definition plain_resolving : SharedDegradation.Variant Clock :=
  fun '(m, w) => (Resolves (VObj 2), (m, w + 1)).

Definition limit_error : Error := {| ref := 4; message := "Campaign targeting failed: HTTP 429: rate limit" |}.

Definition level_resetting : SharedDegradation.Variant Clock :=
  fun '(m, w) =>
    (Rejects limit_error,
     (Degradation.setDegradationLevel 1 "D1 quota limit approached" m, w + 1)).

Definition all_rejecting : SharedDegradation.Operation Clock :=
  {| SharedDegradation.full := Some plain_rejecting;
     SharedDegradation.reduced := Some plain_rejecting;
     SharedDegradation.minimal := Some plain_rejecting;
     SharedDegradation.cacheKey := "users" |}.

Definition reduced_works : SharedDegradation.Operation Clock :=
  {| SharedDegradation.full := Some plain_rejecting;
     SharedDegradation.reduced := Some plain_resolving;
     SharedDegradation.minimal := None;
     SharedDegradation.cacheKey := "users" |}.

Definition only_full : SharedDegradation.Operation Clock :=
  {| SharedDegradation.full := Some plain_rejecting;
     SharedDegradation.reduced := None;
     SharedDegradation.minimal := None;
     SharedDegradation.cacheKey := "users" |}.

Definition all_resetting : SharedDegradation.Operation Clock :=
  {| SharedDegradation.full := Some level_resetting;
     SharedDegradation.reduced := Some level_resetting;
     SharedDegradation.minimal := Some level_resetting;
     SharedDegradation.cacheKey := "users" |}.

Definition shared_start (m : Degradation.GracefulDegradationManager)
  : SharedDegradation.State Clock :=
  {| SharedDegradation.manager := m; SharedDegradation.world := 100;
     SharedDegradation.invoked := [] |}.

Definition minimal_manager : Degradation.GracefulDegradationManager :=
  {| Degradation.currentLevel := Degradation.MINIMAL; Degradation.cache := ∅ |}.

Definition beyond_manager : Degradation.GracefulDegradationManager :=
  {| Degradation.currentLevel := 4; Degradation.cache := ∅ |}.

(** Retry: the first call is accepted for a retry, the second is a quota
    error that the retry condition refuses. *)
Definition quota_error : Error := {| ref := 13; message := "quota exceeded" |}.

Definition then_quota (k : nat) : Completion :=
  match k with
  | O => Rejects first_error
  | _ => Rejects quota_error
  end.

Definition not_quota (error : Error) : bool :=
  negb (includes (message error) "quota").

Definition skip_quota : Retry.Options :=
  {| Retry.maxRetries := None; Retry.baseDelay := None; Retry.maxDelay := None;
     Retry.backoffFactor := None; Retry.retryCondition := Some not_quota |}.

(** An operation that always rejects, each time with a new error. *)
Definition never_working (k : nat) : Completion :=
  Rejects {| ref := k; message := "ECONNRESET" |}.

Definition half_jitter (k : nat) : Q := 1 # 2.

End MoreSamples.

(** * Properties of the circuit breaker *)

Module BreakerFacts.

Import Breaker.

Section WithWorld.

Variable World : Type.
Variable Date_now : World -> Z.

Implicit Types (cb : CircuitBreaker World) (env : Env World)
         (operation : Callback World).

Lemma onFailure_state now cb :
  state (onFailure now cb) =
    if failureThreshold cb <=? failureCount cb + 1 then OPEN else state cb.
Proof. unfold onFailure; simpl. destruct (_ <=? _); reflexivity. Qed.

Lemma onFailure_failureCount now cb :
  failureCount (onFailure now cb) = failureCount cb + 1.
Proof. unfold onFailure; simpl. destruct (_ <=? _); reflexivity. Qed.

Lemma onFailure_lastFailureTime now cb :
  lastFailureTime (onFailure now cb) = Some now.
Proof. unfold onFailure; simpl. destruct (_ <=? _); reflexivity. Qed.

Lemma onFailure_threshold now cb :
  failureThreshold (onFailure now cb) = failureThreshold cb.
Proof. unfold onFailure; simpl. destruct (_ <=? _); reflexivity. Qed.

(** What [fire_call] leaves in the breaker when the operation fails. *)
Lemma fire_call_failed cb operation env :
  failed (fst (operation (world env))) ->
  let now := Date_now (snd (operation (world env))) in
  let cb' := breaker_of (fire_call Date_now cb operation env) in
  state cb' = state (onFailure now cb)
  /\ failureCount cb' = failureCount cb + 1
  /\ failureThreshold cb' = failureThreshold cb
  /\ lastFailureTime cb' = Some now.
Proof.
  intros Hf. unfold breaker_of, fire_call, invoke.
  destruct (operation (world env)) as [c w]. simpl in Hf |- *.
  assert (Hc : exists e, awaited c = inr e)
    by (destruct c; simpl in *; try contradiction; eauto).
  destruct Hc as [e ->].
  destruct (shouldUseFallback e).
  - unfold invoke_fallback. simpl.
    destruct (fallback _ w) as [f w']. simpl.
    rewrite onFailure_failureCount, onFailure_threshold, onFailure_lastFailureTime.
    auto.
  - simpl.
    rewrite onFailure_failureCount, onFailure_threshold, onFailure_lastFailureTime.
    auto.
Qed.

(** [fire] on an open breaker before the reset timeout has passed. *)
Lemma fire_open_eq cb operation env :
  state cb = OPEN ->
  elapsed (Date_now (world env)) cb < resetTimeout cb ->
  fire Date_now cb operation env
  = (returned (fst (fallback cb (world env))),
     bump_totalFallbacks (bump_totalRequests cb),
     {| world := snd (fallback cb (world env)); calls := calls env |}).
Proof.
  intros Hs Ht. unfold fire. simpl. rewrite Hs.
  replace (elapsed _ (bump_totalRequests cb)) with (elapsed (Date_now (world env)) cb)
    by reflexivity.
  destruct (Z.leb_spec (resetTimeout cb) (elapsed (Date_now (world env)) cb)); [lia|].
  unfold invoke_fallback. simpl.
  destruct (fallback cb (world env)) as [f w]. reflexivity.
Qed.

(** C2.  While the breaker is open and less than [resetTimeout]
    milliseconds have passed since the last recorded failure, [fire] does
    not call the operation: whatever the operation is, the call counter
    keeps its value, [totalFallbacks] grows by one, and the call settles as
    the fallback does (the breaker stays open). *)
Theorem fire_open_uses_fallback cb operation env :
  state cb = OPEN ->
  elapsed (Date_now (world env)) cb < resetTimeout cb ->
  let '(result, cb', env') := fire Date_now cb operation env in
  calls env' = calls env
  /\ world env' = snd (fallback cb (world env))
  /\ result = returned (fst (fallback cb (world env)))
  /\ totalFallbacks (stats cb') = totalFallbacks (stats cb) + 1
  /\ totalRequests (stats cb') = totalRequests (stats cb) + 1
  /\ state cb' = OPEN.
Proof.
  intros Hs Ht. rewrite (fire_open_eq cb operation env Hs Ht). simpl.
  repeat split; assumption.
Qed.

(** C1, as amended.  When [fire] invokes the operation with the breaker
    half open (it was half open, or it was open and the reset timeout has
    passed) and the operation fails, the time of the failure becomes the last
    failure time and the failure count grows by one, whatever the count was;
    the breaker goes back to open when this failure brings the count to
    [failureThreshold] or beyond, and stays half open otherwise. *)
Theorem half_open_failure_reopens cb operation env :
  state cb = HALF_OPEN
  \/ (state cb = OPEN /\ resetTimeout cb <= elapsed (Date_now (world env)) cb) ->
  failed (fst (operation (world env))) ->
  let cb' := breaker_of (fire Date_now cb operation env) in
  lastFailureTime cb' = Some (Date_now (snd (operation (world env))))
  /\ failureCount cb' = failureCount cb + 1
  /\ (failureThreshold cb <= failureCount cb + 1 -> state cb' = OPEN)
  /\ (failureCount cb + 1 < failureThreshold cb -> state cb' = HALF_OPEN).
Proof.
  intros Hs Hf. unfold fire. simpl.
  assert (Hgoal : forall cb0,
             failureThreshold cb0 = failureThreshold cb ->
             failureCount cb0 = failureCount cb ->
             state cb0 = HALF_OPEN ->
             let cb' := breaker_of (fire_call Date_now cb0 operation env) in
             lastFailureTime cb' = Some (Date_now (snd (operation (world env))))
             /\ failureCount cb' = failureCount cb + 1
             /\ (failureThreshold cb <= failureCount cb + 1 -> state cb' = OPEN)
             /\ (failureCount cb + 1 < failureThreshold cb -> state cb' = HALF_OPEN)).
  { intros cb0 Ht Hn Hs0.
    destruct (fire_call_failed cb0 operation env Hf) as (H1 & H2 & _ & H4).
    simpl. split; [exact H4|]. split; [rewrite H2, Hn; reflexivity|].
    rewrite H1, onFailure_state, Ht, Hn, Hs0.
    destruct (Z.leb_spec (failureThreshold cb) (failureCount cb + 1));
      split; intros; try reflexivity; lia. }
  destruct Hs as [Hs | [Hs Ht]]; rewrite Hs.
  - apply Hgoal; [reflexivity | reflexivity | exact Hs].
  - replace (elapsed _ (bump_totalRequests cb)) with (elapsed (Date_now (world env)) cb)
      by reflexivity.
    destruct (Z.leb_spec (resetTimeout cb) (elapsed (Date_now (world env)) cb)); [|lia].
    apply Hgoal; reflexivity.
Qed.

(** The state a breaker is in after [n] failed calls, started closed. *)
Lemma failed_calls_inv n cb env cb' env' :
  failed_calls Date_now n cb env cb' env' ->
  state cb = CLOSED ->
  0 <= failureCount cb ->
  failureThreshold cb' = failureThreshold cb
  /\ ((state cb' = OPEN /\ failureThreshold cb <= failureCount cb')
      \/ (state cb' = CLOSED /\ Z.of_nat n <= failureCount cb'
          /\ (n = O \/ failureCount cb' < failureThreshold cb))).
Proof.
  induction 1 as [cb env | n cb env cb1 env1 operation w r cb2 env2 Hn IH Hf Hfire];
    intros Hs Hc.
  - split; [reflexivity|]. right. simpl. auto.
  - destruct (IH Hs Hc) as [Hthr Hcases]. clear IH.
    assert (Hcb2 : cb2 = breaker_of (fire Date_now cb1 operation
                                {| world := w; calls := calls env1 |}))
      by (rewrite Hfire; reflexivity).
    clear Hfire. revert Hcb2. unfold fire. simpl.
    destruct Hcases as [[Hopen Hge] | (Hclosed & Hge & _)].
    + rewrite Hopen.
      destruct (_ <=? _).
      * intros ->.
        destruct (fire_call_failed
                    (set_successCount 0 (set_state HALF_OPEN (bump_totalRequests cb1)))
                    operation {| world := w; calls := calls env1 |} Hf)
          as (H1 & H2 & H3 & _).
        rewrite H1, H2, H3, onFailure_state. simpl.
        split; [exact Hthr|]. left.
        destruct (Z.leb_spec (failureThreshold cb1) (failureCount cb1 + 1)); [|lia].
        split; [reflexivity|lia].
      * unfold invoke_fallback. simpl. destruct (fallback cb1 w) as [f w'].
        intros ->. simpl. split; [exact Hthr|]. left. auto.
    + rewrite Hclosed. intros ->.
      destruct (fire_call_failed (bump_totalRequests cb1) operation
                  {| world := w; calls := calls env1 |} Hf)
        as (H1 & H2 & H3 & _).
      rewrite H1, H2, H3, onFailure_state. simpl.
      split; [exact Hthr|].
      destruct (Z.leb_spec (failureThreshold cb1) (failureCount cb1 + 1)).
      * left. split; [reflexivity|lia].
      * right. rewrite Hclosed. split; [reflexivity|]. split; [lia|]. right. lia.
Qed.

(** A failed call put in front of a run of failed calls. *)
Lemma failed_calls_cons n cb env operation r cb1 env1 cb2 env2 :
  failed (fst (operation (world env))) ->
  fire Date_now cb operation env = (r, cb1, env1) ->
  failed_calls Date_now n cb1 env1 cb2 env2 ->
  failed_calls Date_now (S n) cb env cb2 env2.
Proof.
  intros Hf Hfire Hrun. induction Hrun.
  - destruct env as [w k]. eapply failed_calls_S; [apply failed_calls_O | exact Hf | exact Hfire].
  - eapply failed_calls_S; [apply IHHrun; assumption | eassumption | eassumption].
Qed.

(** [fire_each] with operations that always fail is a run of failed
    calls. *)
Lemma fire_each_failed_calls (operations : list (Callback World)) cb env :
  Forall (fun operation => forall w, failed (fst (operation w))) operations ->
  failed_calls Date_now (length operations) cb env
    (breaker_of (fire_each Date_now cb operations env))
    (snd (fire_each Date_now cb operations env)).
Proof.
  intros Hall. revert cb env.
  induction Hall as [| operation rest Hop _ IH]; intros cb env; simpl.
  - apply failed_calls_O.
  - destruct (fire Date_now cb operation env) as [[r cb1] env1] eqn:Hfire.
    specialize (IH cb1 env1).
    destruct (fire_each Date_now cb1 rest env1) as [[rs cb2] env2].
    eapply failed_calls_cons; [apply Hop | exact Hfire | exact IH].
Qed.

(** C7.  A breaker that is closed (its failure count not negative), after
    exactly [failureThreshold] consecutive calls of [fire] whose operation
    fails, reports the state 'OPEN' in [getStats()]. *)
Theorem threshold_failures_open cb env cb' env' :
  state cb = CLOSED ->
  0 <= failureCount cb ->
  1 <= failureThreshold cb ->
  failed_calls Date_now (Z.to_nat (failureThreshold cb)) cb env cb' env' ->
  view_state (getStats cb') = "OPEN"%string.
Proof.
  intros Hs Hc Ht Hrun.
  destruct (failed_calls_inv _ _ _ _ _ Hrun Hs Hc) as [_ [[Hopen _] | (_ & Hge & Hlt)]].
  - unfold getStats. simpl. rewrite Hopen. reflexivity.
  - exfalso. rewrite Z2Nat.id in Hge by lia.
    destruct Hlt as [H0 | Hlt]; [|lia].
    apply (f_equal Z.of_nat) in H0. rewrite Z2Nat.id in H0 by lia. simpl in H0. lia.
Qed.

(** C8, as amended.  [reset()] puts the breaker in the closed state with
    [failureCount] and the half-open success counter at 0 and the last
    failure time [null]; the statistics [totalRequests], [totalFailures]
    and [totalFallbacks] and the configuration keep their values. *)
Theorem reset_keeps_stats cb :
  state (reset cb) = CLOSED
  /\ failureCount (reset cb) = 0
  /\ successCount (reset cb) = 0
  /\ lastFailureTime (reset cb) = None
  /\ stats (reset cb) = stats cb
  /\ failureThreshold (reset cb) = failureThreshold cb
  /\ resetTimeout (reset cb) = resetTimeout cb.
Proof. unfold reset. simpl. repeat split. Qed.

End WithWorld.

Import Samples.

Example shouldUseFallback_timeout : shouldUseFallback timeout_error = true.
Proof. reflexivity. Qed.

Example shouldUseFallback_boom : shouldUseFallback boom = false.
Proof. reflexivity. Qed.

(** C1 as first stated fails: the default breaker (threshold 5), half open
    after one success, stays half open when the next operation fails. *)
Lemma half_open_failure_below_threshold :
  state half_open_breaker = HALF_OPEN
  /\ failed (fst (rejecting boom 40002 (world half_open_env)))
  /\ state (breaker_of (fire read_clock half_open_breaker
                          (rejecting boom 40002) half_open_env)) = HALF_OPEN
  /\ state (breaker_of (fire read_clock half_open_breaker
                          (rejecting boom 40002) half_open_env)) <> OPEN.
Proof. vm_compute. repeat split. discriminate. Qed.

(** Three failures in the half-open state: of the breaker with threshold
    1, half open after a success (it reopens); of the opened default breaker,
    probed after the reset timeout (it reopens); and of the default breaker,
    half open after a success (it stays half open). *)
Lemma half_open_failure_reopens_witness :
  (state strict_half_open_breaker = HALF_OPEN
   /\ failed (fst (rejecting boom 40002 (world strict_half_open_env)))
   /\ lastFailureTime (breaker_of (fire read_clock strict_half_open_breaker
                                     (rejecting boom 40002) strict_half_open_env))
      = Some 40002
   /\ state (breaker_of (fire read_clock strict_half_open_breaker
                           (rejecting boom 40002) strict_half_open_env)) = OPEN)
  /\ (state opened_breaker = OPEN
      /\ resetTimeout opened_breaker <= elapsed (read_clock 40000) opened_breaker
      /\ lastFailureTime (breaker_of (fire read_clock opened_breaker
                                        (rejecting boom 40001)
                                        {| world := 40000; calls := 5 |}))
         = Some 40001
      /\ state (breaker_of (fire read_clock opened_breaker (rejecting boom 40001)
                              {| world := 40000; calls := 5 |})) = OPEN)
  /\ (state half_open_breaker = HALF_OPEN
      /\ lastFailureTime (breaker_of (fire read_clock half_open_breaker
                                        (rejecting boom 40002) half_open_env))
         = Some 40002
      /\ state (breaker_of (fire read_clock half_open_breaker
                              (rejecting boom 40002) half_open_env)) = HALF_OPEN).
Proof.
  assert (Ha : state strict_half_open_breaker = HALF_OPEN) by reflexivity.
  assert (Hb : state opened_breaker = OPEN
               /\ resetTimeout opened_breaker
                  <= elapsed (read_clock 40000) opened_breaker)
    by (split; [reflexivity | vm_compute; discriminate]).
  assert (Hc : state half_open_breaker = HALF_OPEN) by reflexivity.
  destruct (half_open_failure_reopens Clock read_clock strict_half_open_breaker
              (rejecting boom 40002) strict_half_open_env (or_introl Ha) I)
    as (Ha1 & _ & Ha2 & _).
  destruct (half_open_failure_reopens Clock read_clock opened_breaker
              (rejecting boom 40001) {| world := 40000; calls := 5 |}
              (or_intror Hb) I)
    as (Hb1 & _ & Hb2 & _).
  destruct (half_open_failure_reopens Clock read_clock half_open_breaker
              (rejecting boom 40002) half_open_env (or_introl Hc) I)
    as (Hc1 & _ & _ & Hc2).
  split; [|split].
  - split; [exact Ha|]. split; [exact I|]. split; [exact Ha1|].
    apply Ha2. vm_compute. discriminate.
  - destruct Hb as [Hb' Hb'']. split; [exact Hb'|]. split; [exact Hb''|].
    split; [exact Hb1|]. apply Hb2. vm_compute. discriminate.
  - split; [exact Hc|]. split; [exact Hc1|]. apply Hc2. reflexivity.
Defined.

(** The opened default breaker, called one millisecond after its last
    failure. *)
Lemma fire_open_uses_fallback_witness :
  state opened_breaker = OPEN
  /\ elapsed (read_clock (world opened_env)) opened_breaker < resetTimeout opened_breaker
  /\ let '(result, cb', env') :=
       fire read_clock opened_breaker (resolving (VNum 7) 6) opened_env in
     calls env' = calls opened_env
     /\ world env' = snd (fallback opened_breaker (world opened_env))
     /\ result = returned (fst (fallback opened_breaker (world opened_env)))
     /\ totalFallbacks (stats cb') = totalFallbacks (stats opened_breaker) + 1
     /\ totalRequests (stats cb') = totalRequests (stats opened_breaker) + 1
     /\ state cb' = OPEN.
Proof.
  assert (H1 : state opened_breaker = OPEN) by reflexivity.
  assert (H2 : elapsed (read_clock (world opened_env)) opened_breaker
               < resetTimeout opened_breaker) by reflexivity.
  split; [exact H1|]. split; [exact H2|].
  exact (fire_open_uses_fallback Clock read_clock opened_breaker
           (resolving (VNum 7) 6) opened_env H1 H2).
Defined.

(** Five failed calls on the default breaker. *)
Lemma threshold_failures_open_witness :
  state (constructor default_options) = CLOSED
  /\ failed_calls read_clock 5 (constructor default_options) start
       opened_breaker opened_env
  /\ view_state (getStats opened_breaker) = "OPEN"%string.
Proof.
  assert (Hall : Forall (fun operation : Callback Clock =>
                           forall w, failed (fst (operation w))) five_failures).
  { unfold five_failures.
    repeat (apply List.Forall_cons; [intros w; exact I|]). apply List.Forall_nil. }
  pose proof (fire_each_failed_calls Clock read_clock five_failures
                (constructor default_options) start Hall) as Hrun.
  split; [reflexivity|]. split; [exact Hrun|].
  refine (threshold_failures_open Clock read_clock (constructor default_options) start
           opened_breaker opened_env (eq_refl CLOSED) _ _ Hrun); discriminate.
Defined.

(** C8 as first stated fails: after [reset()] the half-open sample breaker
    still counts its six requests and five failures. *)
Lemma reset_leaves_stats_nonzero :
  totalRequests (stats (reset half_open_breaker)) = 6
  /\ totalFailures (stats (reset half_open_breaker)) = 5
  /\ totalRequests (stats (reset half_open_breaker)) <> 0.
Proof. vm_compute. repeat split; discriminate. Qed.

End BreakerFacts.


(** * Properties of the rate limiter *)

Module LimiterFacts.

Import Limiter.

(** On a positive limit the critical test is [19 * limit <= 20 * used]. *)
Lemma critical_test (u L : Z) :
  0 < L ->
  ratio_ge (js_div u L) (95 # 100) = (19 * L <=? 20 * u).
Proof.
  intros HL. unfold js_div.
  destruct (Z.eqb_spec L 0) as [->|_]; [lia|].
  destruct L as [|p|p]; try lia.
  unfold ratio_ge, Qle_bool, Qdiv, Qmult, Qinv, inject_Z. simpl.
  rewrite Pos.mul_1_l.
  destruct (Z.leb_spec (95 * Z.pos p) (u * 1 * 100)),
           (Z.leb_spec (19 * Z.pos p) (20 * u)); try reflexivity; lia.
Qed.

Lemma ceil_95_bounds (L : Z) :
  20 * (ceil_95 L - 1) < 19 * L <= 20 * ceil_95 L.
Proof.
  unfold ceil_95.
  pose proof (Z.div_mod (19 * L + 19) 20 ltac:(lia)).
  pose proof (Z.mod_pos_bound (19 * L + 19) 20 ltac:(lia)).
  lia.
Qed.

Lemma ceil_95_floor_95 (L : Z) :
  L mod 20 = 0 -> ceil_95 L = floor_95 L.
Proof.
  intros HL. unfold ceil_95, floor_95.
  pose proof (Z.div_mod L 20 ltac:(lia)) as HLd. rewrite HL in HLd.
  replace (19 * L + 19) with (19 + 19 * (L / 20) * 20) by lia.
  replace (19 * L) with (0 + 19 * (L / 20) * 20) by lia.
  rewrite !Z.div_add by lia. reflexivity.
Qed.

Section WithCalendar.

Variable getTomorrowMidnight : Z -> Z.

Lemma lookup_not_reset service now rl quota :
  quotas rl !! service = Some quota ->
  now < resetTime quota ->
  quotas (resetQuotasIfNeeded getTomorrowMidnight now rl) !! service = Some quota.
Proof.
  intros Hq Ht. unfold Limiter.resetQuotasIfNeeded. simpl.
  rewrite lookup_fmap, Hq. simpl.
  destruct (Z.leb_spec (resetTime quota) now); [lia|reflexivity].
Qed.

(** A check below the critical threshold. *)
Lemma checkQuota_below service now rl u L R :
  quotas rl !! service = Some {| used := u; limit := L; resetTime := R |} ->
  criticalThreshold (alerts rl) = 95 # 100 ->
  0 < L -> now < R ->
  20 * u < 19 * L ->
  exists rl',
    checkQuota getTomorrowMidnight service now rl = (Ok, rl')
    /\ quotas rl' !! service = Some {| used := u + 1; limit := L; resetTime := R |}
    /\ alerts rl' = alerts rl.
Proof.
  intros Hq Ha HL Ht Hu. unfold Limiter.checkQuota.
  rewrite (lookup_not_reset _ _ _ _ Hq Ht). simpl.
  rewrite Ha, critical_test by exact HL.
  destruct (Z.leb_spec (19 * L) (20 * u)); [lia|].
  eexists. split; [reflexivity|]. simpl. split; [|reflexivity].
  apply lookup_insert_eq.
Qed.

(** A check at or above the critical threshold. *)
Lemma checkQuota_critical service now rl u L R :
  quotas rl !! service = Some {| used := u; limit := L; resetTime := R |} ->
  criticalThreshold (alerts rl) = 95 # 100 ->
  0 < L -> now < R ->
  19 * L <= 20 * u ->
  exists rl',
    checkQuota getTomorrowMidnight service now rl = (Throw (CriticalQuotaUsage service (js_div u L)), rl')
    /\ quotas rl' !! service = Some {| used := u; limit := L; resetTime := R |}.
Proof.
  intros Hq Ha HL Ht Hu. unfold Limiter.checkQuota.
  rewrite (lookup_not_reset _ _ _ _ Hq Ht). simpl.
  rewrite Ha, critical_test by exact HL.
  destruct (Z.leb_spec (19 * L) (20 * u)); [|lia].
  eexists. split; [reflexivity|].
  exact (lookup_not_reset _ _ _ _ Hq Ht).
Qed.

(** Successive checks that all stay below the critical threshold. *)
Lemma checkQuota_each_below service (times : list Z) : forall rl u L R,
  quotas rl !! service = Some {| used := u; limit := L; resetTime := R |} ->
  criticalThreshold (alerts rl) = 95 # 100 ->
  0 < L ->
  Forall (fun now => now < R) times ->
  u + Z.of_nat (length times) <= ceil_95 L ->
  0 <= u ->
  exists rl',
    checkQuota_each getTomorrowMidnight service times rl = (repeat Ok (length times), rl')
    /\ quotas rl' !! service
       = Some {| used := u + Z.of_nat (length times); limit := L; resetTime := R |}
    /\ alerts rl' = alerts rl.
Proof.
  induction times as [|now times IH]; intros rl u L R Hq Ha HL Ht Hn Hu.
  - exists rl. simpl. rewrite Z.add_0_r. auto.
  - apply Forall_cons in Ht as [Hnow Ht].
    pose proof (ceil_95_bounds L) as Hb.
    destruct (checkQuota_below service now rl u L R Hq Ha HL Hnow) as (rl1 & E1 & Hq1 & Ha1).
    { simpl length in Hn. lia. }
    destruct (IH rl1 (u + 1) L R Hq1) as (rl2 & E2 & Hq2 & Ha2); try assumption.
    { congruence. }
    { simpl length in Hn. lia. }
    { lia. }
    exists rl2. cbn [Limiter.checkQuota_each length repeat].
    rewrite E1, E2. split; [reflexivity|]. split; [|congruence].
    rewrite Hq2. f_equal. f_equal. lia.
Qed.

(** Checks from [used = 0] up to 95% of the ceiling rounded up, and one
    more, for ceilings in the range where the quotient is kept exactly. *)
Lemma checks_up_to_ceiling service rl L R (times : list Z) (next : Z) :
  quotas rl !! service = Some {| used := 0; limit := L; resetTime := R |} ->
  criticalThreshold (alerts rl) = 95 # 100 ->
  0 < L < 10 ^ 14 ->
  Forall (fun now => now < R) times ->
  next < R ->
  Z.of_nat (length times) = ceil_95 L ->
  (forall k : nat, (k <= length times)%nat ->
     exists rl',
       checkQuota_each getTomorrowMidnight service (take k times) rl = (repeat Ok k, rl')
       /\ quotas rl' !! service
          = Some {| used := Z.of_nat k; limit := L; resetTime := R |})
  /\ (exists rl1 rl2,
        checkQuota_each getTomorrowMidnight service times rl = (repeat Ok (length times), rl1)
        /\ checkQuota getTomorrowMidnight service next rl1
           = (Throw (CriticalQuotaUsage service (js_div (ceil_95 L) L)), rl2)
        /\ quotas rl2 !! service = quotas rl1 !! service
        /\ quotas rl2 !! service
           = Some {| used := ceil_95 L; limit := L; resetTime := R |}).
Proof.
  intros Hq Ha [HL _] Ht Hnext Hlen.
  pose proof (ceil_95_bounds L) as Hb.
  split.
  - intros k Hk.
    destruct (checkQuota_each_below service (take k times) rl 0 L R Hq Ha HL)
      as (rl' & E & Hq' & _).
    + apply Forall_take. exact Ht.
    + rewrite length_take. lia.
    + lia.
    + rewrite length_take in E, Hq'.
      replace (k `min` length times)%nat with k in E, Hq' by lia.
      exists rl'. split; [exact E|]. rewrite Hq'. reflexivity.
  - destruct (checkQuota_each_below service times rl 0 L R Hq Ha HL Ht)
      as (rl1 & E & Hq1 & Ha1); [lia|lia|].
    rewrite Hlen in Hq1. simpl in Hq1.
    destruct (checkQuota_critical service next rl1 (ceil_95 L) L R Hq1) as (rl2 & E2 & Hq2);
      [congruence|exact HL|exact Hnext|lia|].
    exists rl1, rl2. split; [rewrite E; reflexivity|]. split; [exact E2|].
    split; [rewrite Hq1, Hq2; reflexivity | exact Hq2].
Qed.

(** C4.  For every resource with one of the ceilings the limiter is built
    with (90000 and 100000; no method changes a ceiling), starting from
    [used = 0] and with no reset boundary reached: the first 95% of [limit]
    rounded down calls of [checkQuota] each succeed and each add exactly one
    to [used]; the next call fails with the critical-usage error and leaves
    [used] as it is. *)
Theorem quota_exhausted_at_floor service rl L R (times : list Z) (next : Z) :
  quotas rl !! service = Some {| used := 0; limit := L; resetTime := R |} ->
  criticalThreshold (alerts rl) = 95 # 100 ->
  L = 90000 \/ L = 100000 ->
  Forall (fun now => now < R) times ->
  next < R ->
  Z.of_nat (length times) = floor_95 L ->
  (forall k : nat, (k <= length times)%nat ->
     exists rl',
       checkQuota_each getTomorrowMidnight service (take k times) rl = (repeat Ok k, rl')
       /\ quotas rl' !! service
          = Some {| used := Z.of_nat k; limit := L; resetTime := R |})
  /\ (exists rl1 rl2,
        checkQuota_each getTomorrowMidnight service times rl = (repeat Ok (length times), rl1)
        /\ checkQuota getTomorrowMidnight service next rl1
           = (Throw (CriticalQuotaUsage service (js_div (floor_95 L) L)), rl2)
        /\ quotas rl2 !! service = quotas rl1 !! service
        /\ quotas rl2 !! service
           = Some {| used := floor_95 L; limit := L; resetTime := R |}).
Proof.
  intros Hq Ha HL Ht Hnext Hlen.
  assert (Hce : ceil_95 L = floor_95 L)
    by (apply ceil_95_floor_95; destruct HL as [-> | ->]; reflexivity).
  rewrite <- Hce in *.
  apply checks_up_to_ceiling; try assumption.
  destruct HL as [-> | ->]; split; reflexivity.
Qed.

(** The resources the constructor sets up, and their ceilings. *)
Lemma constructor_quotas now service quota :
  quotas (constructor getTomorrowMidnight now) !! service = Some quota ->
  used quota = 0
  /\ resetTime quota = getTomorrowMidnight now
  /\ (limit quota = 90000 \/ limit quota = 100000)
  /\ ceil_95 (limit quota) = floor_95 (limit quota).
Proof.
  unfold constructor. simpl. intros H.
  repeat (apply lookup_insert_Some in H as [[_ <-] | [_ H]];
          [simpl; repeat split; auto|]).
  rewrite lookup_empty in H. discriminate.
Qed.

End WithCalendar.

Import Samples.

(** The new limiter: 85500 checks of "d1Reads" before the first midnight,
    and one more. *)
Lemma quota_exhausted_at_floor_witness :
  quotas (constructor utc_midnight 0) !! "d1Reads"%string
  = Some {| used := 0; limit := 90000; resetTime := utc_midnight 0 |}
  /\ Forall (fun now => now < utc_midnight 0) day_of_checks
  /\ Z.of_nat (length day_of_checks) = floor_95 90000
  /\ exists rl1 rl2,
       checkQuota_each utc_midnight "d1Reads" day_of_checks (constructor utc_midnight 0)
       = (repeat Ok (length day_of_checks), rl1)
       /\ checkQuota utc_midnight "d1Reads" 6 rl1
          = (Throw (CriticalQuotaUsage "d1Reads" (js_div (floor_95 90000) 90000)), rl2)
       /\ quotas rl2 !! "d1Reads"%string = quotas rl1 !! "d1Reads"%string
       /\ quotas rl2 !! "d1Reads"%string
          = Some {| used := floor_95 90000; limit := 90000;
                    resetTime := utc_midnight 0 |}.
Proof.
  assert (H1 : quotas (constructor utc_midnight 0) !! "d1Reads"%string
               = Some {| used := 0; limit := 90000; resetTime := utc_midnight 0 |})
    by (vm_compute; reflexivity).
  assert (H2 : Forall (fun now => now < utc_midnight 0) day_of_checks).
  { unfold day_of_checks. apply List.Forall_forall. intros now Hin.
    apply repeat_spec in Hin. subst now. reflexivity. }
  assert (H3 : Z.of_nat (length day_of_checks) = floor_95 90000).
  { unfold day_of_checks. rewrite repeat_length, Z2Nat.id by discriminate.
    reflexivity. }
  split; [exact H1|]. split; [exact H2|]. split; [exact H3|].
  exact (proj2 (quota_exhausted_at_floor utc_midnight "d1Reads"
                  (constructor utc_midnight 0) 90000 (utc_midnight 0) day_of_checks 6
                  H1 (eq_refl (95 # 100)) (or_introl eq_refl) H2 (eq_refl Lt) H3)).
Defined.

End LimiterFacts.

(** * Properties of the degradation manager *)

Module DegradationFacts.

Import Degradation.

Section WithWorld.

Variable World : Type.
Variable Date_now : World -> Z.

Implicit Types (m : GracefulDegradationManager) (operation : Operation World)
         (fallbackOptions : FallbackOptions) (env : Env World).

Lemma getCachedResult_level key now m :
  currentLevel (snd (getCachedResult key now m)) = currentLevel m.
Proof.
  unfold getCachedResult. destruct (cache m !! key) as [cached|]; [|reflexivity].
  destruct (now <? expires cached); reflexivity.
Qed.

(** The [switch] never changes the level. *)
Lemma dispatch_level m operation fallbackOptions env :
  currentLevel (snd (fst (dispatch Date_now m operation fallbackOptions env)))
  = currentLevel m.
Proof.
  unfold dispatch.
  repeat match goal with
         | |- context [if ?b then _ else _] => destruct b
         | |- context [let (_, _) := ?x in _] => destruct x eqn:?
         | |- context [match awaited ?c with _ => _ end] => destruct (awaited c)
         | |- _ => simpl
         end; try reflexivity;
  match goal with
  | H : getCachedResult ?k ?n ?m = (_, ?m') |- currentLevel ?m' = _ =>
      pose proof (getCachedResult_level k n m) as HL; rewrite H in HL; exact HL
  end.
Qed.

(** With enough fuel [execute] returns, and the level it leaves is not
    below the one it started from and not above the higher of that level and
    [EMERGENCY]. *)
Lemma execute_returns (fuel : nat) : forall m operation fallbackOptions env,
  (Z.to_nat (EMERGENCY - currentLevel m) < fuel)%nat ->
  exists s m' env',
    execute Date_now fuel m operation fallbackOptions env = Some (s, m', env')
    /\ currentLevel m <= currentLevel m'
    /\ currentLevel m' <= Z.max (currentLevel m) EMERGENCY.
Proof.
  induction fuel as [|fuel IH]; intros m operation fallbackOptions env Hfuel; [lia|].
  simpl.
  pose proof (dispatch_level m operation fallbackOptions env) as HL.
  destruct (dispatch Date_now m operation fallbackOptions env) as [[[s|error] m1] env1];
    simpl in HL.
  - exists s, m1, env1. split; [reflexivity|]. lia.
  - destruct (Z.ltb_spec (currentLevel m1) EMERGENCY) as [Hlt|Hge].
    + unfold setDegradationLevel.
      destruct (Z.eqb_spec (currentLevel m1) (currentLevel m1 + 1)); [lia|]. simpl.
      destruct (IH {| currentLevel := currentLevel m1 + 1; cache := cache m1 |}
                  operation fallbackOptions env1)
        as (s & m' & env' & E & H1 & H2).
      { simpl. unfold EMERGENCY in *. lia. }
      exists s, m', env'. split; [exact E|]. simpl in H1, H2.
      unfold EMERGENCY in *. lia.
    + exists (Rejected (VErr error)), m1, env1. split; [reflexivity|]. lia.
Qed.

Lemma executeWithDegradation_returns m operation fallbackOptions env :
  exists s m' env',
    executeWithDegradation Date_now m operation fallbackOptions env = Some (s, m', env')
    /\ currentLevel m <= currentLevel m'
    /\ currentLevel m' <= Z.max (currentLevel m) EMERGENCY.
Proof. unfold executeWithDegradation. apply execute_returns. lia. Qed.

(** C3, as amended.  At the emergency level [executeWithDegradation] invokes
    no variant and fulfils: with the data of the cache entry of [cacheKey]
    when that entry has not expired and its data is truthy; with
    [fallbackOptions.emergency] when there is no unexpired entry, and also
    when the unexpired entry holds falsy data. *)
Theorem emergency_cache_or_fallback m operation fallbackOptions env :
  currentLevel m = EMERGENCY ->
  exists r m',
    executeWithDegradation Date_now m operation fallbackOptions env
    = Some (Fulfilled r, m', env)
    /\ (forall cached,
          cache m !! cacheKey operation = Some cached ->
          Date_now (world env) < expires cached ->
          truthy (data cached) = true ->
          r = data cached)
    /\ (forall cached,
          cache m !! cacheKey operation = Some cached ->
          Date_now (world env) < expires cached ->
          truthy (data cached) = false ->
          r = emergency fallbackOptions)
    /\ (cache m !! cacheKey operation = None
        \/ (exists cached, cache m !! cacheKey operation = Some cached
                           /\ expires cached <= Date_now (world env)) ->
        r = emergency fallbackOptions).
Proof.
  intros HL. unfold executeWithDegradation. rewrite HL. simpl.
  unfold dispatch. rewrite HL. simpl. unfold getCachedResult.
  destruct (cache m !! cacheKey operation) as [cached|] eqn:Hc.
  - destruct (Z.ltb_spec (Date_now (world env)) (expires cached)) as [Hlt|Hge].
    + eexists _, _. split; [reflexivity|]. unfold js_or.
      split; [|split].
      * intros c [= <-] _ Ht. rewrite Ht. reflexivity.
      * intros c [= <-] _ Ht. rewrite Ht. reflexivity.
      * intros [H|(c & [= <-] & H)]; [discriminate|lia].
    + eexists _, _. split; [reflexivity|]. unfold js_or. simpl.
      split; [|split].
      * intros c [= <-] H. lia.
      * intros c [= <-] H. lia.
      * reflexivity.
  - eexists _, _. split; [reflexivity|]. unfold js_or. simpl.
    split; [|split]; try discriminate. reflexivity.
Qed.

(** C9.  [setDegradationLevel(l, reason)] leaves the manager at level [l]
    whatever the level was before, so also when [l] is lower; whereas
    [executeWithDegradation] always returns and never leaves the level lower
    than it found it. *)
Theorem level_set_freely_raised_only :
  (forall l reason m,
     currentLevel (setDegradationLevel l reason m) = l
     /\ cache (setDegradationLevel l reason m) = cache m)
  /\ (forall m operation fallbackOptions env,
        exists s m' env',
          executeWithDegradation Date_now m operation fallbackOptions env
          = Some (s, m', env')
          /\ currentLevel m <= currentLevel m').
Proof.
  split.
  - intros l reason m. unfold setDegradationLevel.
    destruct (Z.eqb_spec (currentLevel m) l); simpl; auto.
  - intros m operation fallbackOptions env.
    destruct (executeWithDegradation_returns m operation fallbackOptions env)
      as (s & m' & env' & E & H & _).
    exists s, m', env'. auto.
Qed.

End WithWorld.

Import Samples.

(** C3 as first stated fails: at the emergency level, with the unexpired
    entry 0 cached for the key, the call fulfils with the emergency value and
    not with the cached 0. *)
Lemma emergency_ignores_falsy_cache :
  cache emergency_manager_zero !! cacheKey no_variants
  = Some {| data := VNum 0; expires := 500 |}
  /\ read_clock (world quiet) < 500
  /\ executeWithDegradation read_clock emergency_manager_zero no_variants offline quiet
     = Some (Fulfilled (VStr "offline"), emergency_manager_zero, quiet)
  /\ Fulfilled (VStr "offline") <> Fulfilled (VNum 0).
Proof.
  split; [vm_compute; reflexivity|]. split; [reflexivity|].
  split; [vm_compute; reflexivity|]. discriminate.
Qed.

(** The emergency level with an unexpired truthy entry. *)
Lemma emergency_cache_or_fallback_witness :
  currentLevel emergency_manager_list = EMERGENCY
  /\ exists r m',
       executeWithDegradation read_clock emergency_manager_list no_variants offline quiet
       = Some (Fulfilled r, m', quiet)
       /\ r = VObj 1.
Proof.
  split; [reflexivity|].
  destruct (emergency_cache_or_fallback Clock read_clock emergency_manager_list
              no_variants offline quiet (eq_refl EMERGENCY))
    as (r & m' & E & Hdata & _ & _).
  exists r, m'. split; [exact E|].
  apply (Hdata {| data := VObj 1; expires := 500 |});
    [vm_compute; reflexivity | reflexivity | reflexivity].
Defined.

(** C6 at the failing input: at the reduced level, without a [reduced]
    variant, the rejection of the promise that [operation.full()] returns
    reaches the caller; the level stays [REDUCED] and nothing is retried. *)
Lemma reduced_fallback_to_full_not_escalated :
  executeWithDegradation read_clock reduced_manager only_full_rejecting offline quiet
  = Some (Rejected (VErr boom), reduced_manager,
          {| world := 100; invoked := [Full] |}).
Proof. vm_compute. reflexivity. Qed.

End DegradationFacts.


(** * Properties of retryWithBackoff *)

Module RetryFacts.

Import Retry.

Section WithOperation.

Variable operation : nat -> Completion.
Variable random : nat -> Q.

Section Loop.

Variable max_retries : Z.
Variable base_delay max_delay backoff_factor : Q.
Variable retry_condition : Error -> bool.

(** [n] failures that the retry condition accepts, then a success. *)
Lemma loop_succeeds (n : nat) : forall (fuel : nat) (attempt : Z) (run : Run) v,
  (n < fuel)%nat ->
  attempt + Z.of_nat n <= max_retries ->
  (forall k, (k < n)%nat ->
     exists e, awaited (operation (calls run + k)) = inr e /\ retry_condition e = true) ->
  awaited (operation (calls run + n)) = inl v ->
  exists run',
    loop operation random max_retries base_delay max_delay backoff_factor
      retry_condition fuel attempt run = Some (Fulfilled v, run')
    /\ calls run' = S (calls run + n).
Proof.
  induction n as [|n IH]; intros fuel attempt run v Hfuel Hle Hfail Hok;
    (destruct fuel as [|fuel]; [lia|]); simpl.
  - destruct (Z.leb_spec attempt max_retries); [|lia].
    rewrite Nat.add_0_r in Hok. rewrite Hok. eexists. split; [reflexivity|].
    simpl. rewrite Nat.add_0_r. reflexivity.
  - destruct (Z.leb_spec attempt max_retries); [|lia].
    destruct (Hfail O ltac:(lia)) as (e & He & Hrc).
    rewrite Nat.add_0_r in He. rewrite He, Hrc.
    destruct (Z.eqb_spec attempt max_retries); [lia|]. simpl.
    edestruct (IH fuel (attempt + 1)) as (run' & E & Hcalls);
      [| | | | exists run'; split; [exact E|]].
    + lia.
    + lia.
    + simpl. intros k Hk. destruct (Hfail (S k) ltac:(lia)) as (e' & He' & Hrc').
      exists e'. replace (calls run + S k)%nat with (S (calls run + k)) in He' by lia.
      auto.
    + simpl. replace (calls run + S n)%nat with (S (calls run + n)) in Hok by lia.
      exact Hok.
    + rewrite Hcalls. simpl. lia.
Qed.

(** With enough fuel the loop returns; it makes at most
    [max_retries - attempt + 1] further calls; and when it rejects after at
    least one call, the reason is the error of the latest call. *)
Lemma loop_returns (fuel : nat) : forall (attempt : Z) (run : Run),
  (Z.to_nat (max_retries - attempt + 1) < fuel)%nat ->
  lastError_latest operation run ->
  exists r run',
    loop operation random max_retries base_delay max_delay backoff_factor
      retry_condition fuel attempt run = Some (r, run')
    /\ Z.of_nat (calls run') <= Z.of_nat (calls run) + Z.max 0 (max_retries - attempt + 1)
    /\ (forall reason, r = Rejected reason -> calls run' <> O ->
          exists k e, calls run' = S k /\ awaited (operation k) = inr e
                      /\ reason = VErr e).
Proof.
  induction fuel as [|fuel IH]; intros attempt run Hfuel Hinv; [lia|].
  simpl.
  destruct (Z.leb_spec attempt max_retries) as [Hle|Hgt].
  - destruct (awaited (operation (calls run))) as [v|error] eqn:Hop.
    + eexists _, _. split; [reflexivity|]. simpl. split; [lia|]. discriminate.
    + destruct ((attempt =? max_retries) || negb (retry_condition error)).
      * eexists _, _. split; [reflexivity|]. simpl. split; [lia|].
        intros reason [= <-] _. exists (calls run), error. auto.
      * edestruct (IH (attempt + 1)) as (r & run' & E & Hcalls & Hlast);
          [| | exists r, run'; split; [exact E|]].
        -- lia.
        -- unfold lastError_latest. simpl. exists (calls run). auto.
        -- simpl in Hcalls. split; [lia|]. exact Hlast.
  - eexists _, _. split; [reflexivity|]. split; [lia|].
    intros reason [= <-] Hcalls. unfold lastError_latest in Hinv.
    destruct (lastError run) as [error|].
    + destruct Hinv as (k & Hk & He). exists k, error. auto.
    + contradiction.
Qed.

End Loop.


(** C10.  With [maxRetries] below 0 the operation is never called and
    [retryWithBackoff] rejects with [undefined], the never assigned
    [lastError]. *)
Theorem negative_maxRetries_throws_undefined (options : Options) (n : Z) :
  maxRetries options = Some n ->
  n < 0 ->
  retryWithBackoff operation random options
  = Some (Rejected VUndefined, {| calls := O; sleeps := []; lastError := None |}).
Proof.
  intros Hm Hn. unfold retryWithBackoff. rewrite Hm. simpl.
  destruct (Z.leb_spec 0 n); [lia|reflexivity].
Qed.

End WithOperation.

Import Samples.


(** [maxRetries: -1]. *)
Lemma negative_maxRetries_throws_undefined_witness :
  maxRetries negative_retries = Some (-1)
  /\ -1 < 0
  /\ retryWithBackoff twice_failing no_jitter negative_retries
     = Some (Rejected VUndefined, {| calls := O; sleeps := []; lastError := None |}).
Proof.
  split; [reflexivity|]. split; [reflexivity|].
  exact (negative_maxRetries_throws_undefined twice_failing no_jitter negative_retries
           (-1) eq_refl eq_refl).
Defined.

End RetryFacts.

(** * Further properties of the circuit breaker *)

Module BreakerMore.

Import Breaker BreakerInv.

Section WithWorld.

Variable World : Type.
Variable Date_now : World -> Z.

Implicit Types (cb : CircuitBreaker World) (env : Env World)
         (operation : Callback World).

Lemma fire_call_calls cb operation env :
  calls (snd (fire_call Date_now cb operation env)) = S (calls env).
Proof.
  unfold fire_call, invoke. destruct (operation (world env)) as [c w]. simpl.
  destruct (awaited c) as [v|e]; [reflexivity|].
  destruct (shouldUseFallback e); [|reflexivity].
  unfold invoke_fallback. simpl. destruct (fallback _ w). reflexivity.
Qed.

Lemma fire_call_succeeded cb operation env v :
  awaited (fst (operation (world env))) = inl v ->
  fire_call Date_now cb operation env
  = (Fulfilled v, onSuccess cb,
     {| world := snd (operation (world env)); calls := S (calls env) |}).
Proof.
  unfold fire_call, invoke. destruct (operation (world env)) as [c w]. simpl.
  intros ->. reflexivity.
Qed.

(** A closed breaker after [n] failed calls that do not reach the
    threshold. *)
Lemma failed_calls_below n cb env cb' env' :
  failed_calls Date_now n cb env cb' env' ->
  state cb = CLOSED ->
  failureCount cb + Z.of_nat n < failureThreshold cb ->
  state cb' = CLOSED
  /\ failureCount cb' = failureCount cb + Z.of_nat n
  /\ failureThreshold cb' = failureThreshold cb
  /\ calls env' = (calls env + n)%nat.
Proof.
  induction 1 as [cb env | n cb env cb1 env1 operation w r cb2 env2 Hn IH Hf Hfire];
    intros Hs Hc.
  - repeat split; [exact Hs | lia | lia].
  - destruct IH as (Hs1 & Hc1 & Ht1 & Hk1); [exact Hs | lia |].
    revert Hfire. unfold fire. simpl. rewrite Hs1. intros Hfire.
    pose proof (BreakerFacts.fire_call_failed World Date_now (bump_totalRequests cb1)
                  operation {| world := w; calls := calls env1 |} Hf) as Hfail.
    pose proof (fire_call_calls (bump_totalRequests cb1) operation
                  {| world := w; calls := calls env1 |}) as Hcalls.
    unfold breaker_of in Hfail. rewrite Hfire in Hfail, Hcalls. simpl in Hfail, Hcalls.
    destruct Hfail as (H1 & H2 & H3 & _).
    rewrite BreakerFacts.onFailure_state in H1. simpl in H1.
    destruct (Z.leb_spec (failureThreshold cb1) (failureCount cb1 + 1)); [lia|].
    repeat split; [congruence | lia | congruence | lia].
Qed.

(** X1.  Fewer consecutive failures than the threshold leave a closed
    breaker closed: after [n] failed calls with
    [failureCount + n < failureThreshold] the state is still CLOSED, the
    failure count has grown by [n], and the operation was invoked in every
    one of the calls. *)
Theorem below_threshold_stays_closed n cb env cb' env' :
  failed_calls Date_now n cb env cb' env' ->
  state cb = CLOSED ->
  failureCount cb + Z.of_nat n < failureThreshold cb ->
  state cb' = CLOSED
  /\ failureCount cb' = failureCount cb + Z.of_nat n
  /\ calls env' = (calls env + n)%nat.
Proof.
  intros Hrun Hs Hc.
  destruct (failed_calls_below n cb env cb' env' Hrun Hs Hc) as (H1 & H2 & _ & H4).
  auto.
Qed.

(** A call whose operation succeeds while the breaker is half open, or open
    with the reset timeout passed. *)
Lemma probe_succeeded cb operation env v :
  state cb = HALF_OPEN
  \/ (state cb = OPEN /\ resetTimeout cb <= elapsed (Date_now (world env)) cb) ->
  awaited (fst (operation (world env))) = inl v ->
  exists cb1,
    fire Date_now cb operation env
    = (Fulfilled v, cb1,
       {| world := snd (operation (world env)); calls := S (calls env) |})
    /\ successCount cb1
       = match state cb with OPEN => 0 | _ => successCount cb end + 1
    /\ state cb1 = (if 3 <=? successCount cb1 then CLOSED else HALF_OPEN)
    /\ failureCount cb1 = 0
    /\ resetTimeout cb1 = resetTimeout cb.
Proof.
  intros Hs Hv. unfold fire. simpl.
  destruct Hs as [Hs | [Hs Ht]]; rewrite Hs.
  - rewrite (fire_call_succeeded _ _ _ _ Hv). eexists. split; [reflexivity|].
    unfold onSuccess. simpl. rewrite Hs. simpl.
    destruct (3 <=? successCount cb + 1) eqn:E; simpl; rewrite ?E; auto.
  - replace (elapsed _ (bump_totalRequests cb)) with (elapsed (Date_now (world env)) cb)
      by reflexivity.
    destruct (Z.leb_spec (resetTimeout cb) (elapsed (Date_now (world env)) cb)); [|lia].
    rewrite (fire_call_succeeded _ _ _ _ Hv). eexists. split; [reflexivity|].
    unfold onSuccess. simpl. auto.
Qed.

(** X2.  Recovery: on an open breaker whose reset timeout has passed, the
    first and the second successful call leave it half open, and the third
    successful call in a row closes it with the failure count at 0; the
    operation is invoked in each of the three calls. *)
Theorem three_successes_close cb o1 o2 o3 env :
  state cb = OPEN ->
  resetTimeout cb <= elapsed (Date_now (world env)) cb ->
  always_succeeds o1 -> always_succeeds o2 -> always_succeeds o3 ->
  state (breaker_of (fire_each Date_now cb [o1] env)) = HALF_OPEN
  /\ state (breaker_of (fire_each Date_now cb [o1; o2] env)) = HALF_OPEN
  /\ state (breaker_of (fire_each Date_now cb [o1; o2; o3] env)) = CLOSED
  /\ failureCount (breaker_of (fire_each Date_now cb [o1; o2; o3] env)) = 0
  /\ calls (snd (fire_each Date_now cb [o1; o2; o3] env)) = (calls env + 3)%nat
  /\ Forall (fun r => exists v, r = Fulfilled v)
       (fst (fst (fire_each Date_now cb [o1; o2; o3] env))).
Proof.
  intros Hs Ht H1 H2 H3.
  destruct (H1 (world env)) as [v1 Hv1].
  destruct (probe_succeeded cb o1 env v1 (or_intror (conj Hs Ht)) Hv1)
    as (cb1 & E1 & Hn1 & Hs1 & Hf1 & _).
  rewrite Hs in Hn1. simpl in Hn1. rewrite Hn1 in Hs1. simpl in Hs1.
  set (env1 := {| world := snd (o1 (world env)); calls := S (calls env) |}) in *.
  destruct (H2 (world env1)) as [v2 Hv2].
  destruct (probe_succeeded cb1 o2 env1 v2 (or_introl Hs1) Hv2)
    as (cb2 & E2 & Hn2 & Hs2 & Hf2 & _).
  rewrite Hs1, Hn1 in Hn2. simpl in Hn2. rewrite Hn2 in Hs2. simpl in Hs2.
  set (env2 := {| world := snd (o2 (world env1)); calls := S (calls env1) |}) in *.
  destruct (H3 (world env2)) as [v3 Hv3].
  destruct (probe_succeeded cb2 o3 env2 v3 (or_introl Hs2) Hv3)
    as (cb3 & E3 & Hn3 & Hs3 & Hf3 & _).
  rewrite Hs2, Hn2 in Hn3. simpl in Hn3. rewrite Hn3 in Hs3. simpl in Hs3.
  unfold breaker_of. cbn [fire_each]. rewrite E1, E2, E3. simpl.
  repeat split; try assumption.
  - lia.
  - repeat constructor; eauto.
Qed.

(** X3.  Every call of [fire] adds exactly one to [totalRequests]; it adds
    nothing or one to [totalFailures] and to [totalFallbacks]; and it leaves
    the configuration ([failureThreshold], [resetTimeout], [fallback]) as it
    was. *)
Theorem fire_stats_monotone cb operation env :
  let cb' := breaker_of (fire Date_now cb operation env) in
  totalRequests (stats cb') = totalRequests (stats cb) + 1
  /\ totalFailures (stats cb) <= totalFailures (stats cb') <= totalFailures (stats cb) + 1
  /\ totalFallbacks (stats cb) <= totalFallbacks (stats cb') <= totalFallbacks (stats cb) + 1
  /\ failureThreshold cb' = failureThreshold cb
  /\ resetTimeout cb' = resetTimeout cb
  /\ fallback cb' = fallback cb.
Proof.
  unfold breaker_of, fire, fire_call, invoke, invoke_fallback, onSuccess, onFailure.
  simpl.
  destruct (state cb); simpl;
    repeat match goal with
           | |- context [operation ?w] => destruct (operation w) as [? ?]; simpl
           | |- context [fallback cb ?w] => destruct (fallback cb w) as [? ?]; simpl
           | |- context [awaited ?c] => destruct (awaited c); simpl
           | |- context [shouldUseFallback ?e] => destruct (shouldUseFallback e); simpl
           | |- context [if ?a <=? ?b then _ else _] => destruct (a <=? b); simpl
           end;
    repeat split; lia.
Qed.

(** X4.  Failures must be consecutive to open the breaker: after one
    successful call on a closed breaker, whatever its failure count was, any
    [n < failureThreshold] failed calls leave it closed. *)
Theorem success_restarts_count n cb operation env v cb1 env1 w cb2 env2 :
  state cb = CLOSED ->
  awaited (fst (operation (world env))) = inl v ->
  fire Date_now cb operation env = (Fulfilled v, cb1, env1) ->
  failed_calls Date_now n cb1 {| world := w; calls := calls env1 |} cb2 env2 ->
  Z.of_nat n < failureThreshold cb ->
  state cb2 = CLOSED /\ failureCount cb2 = Z.of_nat n.
Proof.
  intros Hs Hv Hfire Hrun Hn.
  revert Hfire. unfold fire. simpl. rewrite Hs.
  rewrite (fire_call_succeeded _ _ _ _ Hv). intros [= <- <-].
  destruct (failed_calls_below _ _ _ _ _ Hrun) as (H1 & H2 & _).
  - unfold onSuccess. simpl. rewrite Hs. exact Hs.
  - unfold onSuccess. simpl. rewrite Hs. simpl. lia.
  - split; [exact H1|]. rewrite H2. unfold onSuccess. simpl. rewrite Hs. simpl. lia.
Qed.

(** X5.  Whenever [fire] invokes the operation (the breaker is closed or
    half open, or it is open and the reset timeout has passed) and the
    operation fails, one failure is counted; with an error that is not
    fallback-eligible [fire] rejects with that very error and does not call
    the fallback; with a fallback-eligible error [fire] settles as the
    fallback does and counts one fallback. *)
Theorem failure_propagates_or_falls_back cb operation env e :
  state cb <> OPEN \/ resetTimeout cb <= elapsed (Date_now (world env)) cb ->
  awaited (fst (operation (world env))) = inr e ->
  let w1 := snd (operation (world env)) in
  let '(result, cb', env') := fire Date_now cb operation env in
  totalFailures (stats cb') = totalFailures (stats cb) + 1
  /\ calls env' = S (calls env)
  /\ (shouldUseFallback e = false ->
      result = Rejected (VErr e) /\ world env' = w1
      /\ totalFallbacks (stats cb') = totalFallbacks (stats cb))
  /\ (shouldUseFallback e = true ->
      result = returned (fst (fallback cb w1)) /\ world env' = snd (fallback cb w1)
      /\ totalFallbacks (stats cb') = totalFallbacks (stats cb) + 1).
Proof.
  intros Hs He. unfold fire, fire_call, invoke, invoke_fallback, onFailure. simpl.
  replace (elapsed _ (bump_totalRequests cb)) with (elapsed (Date_now (world env)) cb)
    by reflexivity.
  assert (Hopen : state cb = OPEN ->
                  (resetTimeout cb <=? elapsed (Date_now (world env)) cb) = true).
  { intros Ho. destruct Hs as [Hs|Hs]; [congruence|].
    destruct (Z.leb_spec (resetTimeout cb) (elapsed (Date_now (world env)) cb));
      [reflexivity|lia]. }
  destruct (operation (world env)) as [c w]. simpl in He |- *.
  destruct (state cb) eqn:Hst; [| rewrite (Hopen eq_refl) |]; simpl;
    rewrite He; simpl;
    destruct (shouldUseFallback e); simpl;
    destruct (failureThreshold cb <=? failureCount cb + 1); simpl;
    try destruct (fallback cb w) as [f w']; simpl;
    repeat split; auto; discriminate.
Qed.

(** X7.  After [reset()] the next call of [fire] invokes the operation,
    whatever the state of the breaker was and however recent its last
    failure: the call counter goes up by one. *)
Theorem reset_reenables_operation cb operation env :
  calls (snd (fire Date_now (reset cb) operation env)) = S (calls env).
Proof. unfold fire. simpl. apply fire_call_calls. Qed.


End WithWorld.

(** ** The classification of errors *)

Lemma append_String (c : ascii) (a b : string) :
  (String c a ++ b)%string = String c (a ++ b).
Proof. reflexivity. Qed.

Lemma append_empty (b : string) : ("" ++ b)%string = b.
Proof. reflexivity. Qed.

Lemma prefix_app (p s : string) :
  String.prefix p s = true <-> exists b, s = (p ++ b)%string.
Proof.
  revert s. induction p as [|c p IH]; intros s.
  - split; [intros _; exists s; reflexivity | intros _; destruct s; reflexivity].
  - destruct s as [|c' s]; simpl.
    + split; [discriminate | intros [b Hb]; rewrite append_String in Hb; discriminate].
    + destruct (ascii_dec c c') as [<-|Hne].
      * rewrite IH. split; intros [b Hb]; exists b; rewrite append_String in *;
          congruence.
      * split; [discriminate | intros [b Hb]; rewrite append_String in Hb; congruence].
Qed.

Lemma includes_unfold (s p : string) :
  includes s p
  = if String.prefix p s then true
    else match s with
         | EmptyString => false
         | String _ s' => includes s' p
         end.
Proof. destruct s; reflexivity. Qed.

Lemma includes_app (s p : string) :
  includes s p = true <-> exists a b, s = (a ++ p ++ b)%string.
Proof.
  induction s as [|c s IH].
  - rewrite includes_unfold. destruct (String.prefix p "") eqn:Hp.
    + split; [intros _|reflexivity]. apply prefix_app in Hp as [b Hb].
      exists ""%string, b. exact Hb.
    + split; [discriminate|]. intros (a & b & Hab). exfalso.
      destruct a; [|rewrite append_String in Hab; discriminate].
      rewrite append_empty in Hab.
      assert (String.prefix p "" = true) by (apply prefix_app; eauto). congruence.
  - rewrite includes_unfold. destruct (String.prefix p (String c s)) eqn:Hp.
    + split; [intros _|reflexivity]. apply prefix_app in Hp as [b Hb].
      exists ""%string, b. exact Hb.
    + rewrite IH. split.
      * intros (a & b & ->). exists (String c a), b. reflexivity.
      * intros (a & b & Hab). destruct a as [|c' a].
        -- rewrite append_empty in Hab.
           assert (String.prefix p (String c s) = true) by (apply prefix_app; eauto).
           congruence.
        -- rewrite append_String in Hab. exists a, b. congruence.
Qed.

Lemma toLowerCase_app (a b : string) :
  toLowerCase (a ++ b) = (toLowerCase a ++ toLowerCase b)%string.
Proof.
  induction a as [|c a IH]; [reflexivity|].
  rewrite append_String. simpl. rewrite append_String, IH. reflexivity.
Qed.

Lemma toLowerCase_split (x y m : string) :
  toLowerCase m = (x ++ y)%string ->
  exists m1 m2, m = (m1 ++ m2)%string /\ toLowerCase m1 = x /\ toLowerCase m2 = y.
Proof.
  revert m. induction x as [|c x IH]; intros m H.
  - exists ""%string, m. auto.
  - rewrite append_String in H. destruct m as [|c' m]; simpl in H; [discriminate|].
    injection H as Hc Hm. destruct (IH m Hm) as (m1 & m2 & -> & H1 & H2).
    exists (String c' m1), m2. simpl. rewrite H1, Hc. auto.
Qed.

(** X6.  An error is fallback-eligible exactly when its message contains,
    in any mix of upper and lower case, one of the five patterns "quota
    exceeded", "rate limit", "too many requests", "service unavailable" and
    "timeout". *)
Theorem shouldUseFallback_spec (e : Error) :
  shouldUseFallback e = true
  <-> exists a p b,
        message e = (a ++ p ++ b)%string /\ In (toLowerCase p) quotaErrors.
Proof.
  unfold shouldUseFallback. rewrite existsb_exists. split.
  - intros (x & Hx & Hinc). apply includes_app in Hinc as (a' & b' & Hab).
    apply toLowerCase_split in Hab as (a & rest & Hm & Ha & Hrest).
    apply toLowerCase_split in Hrest as (p & b & -> & Hp & Hb).
    exists a, p, b. split; [exact Hm | rewrite Hp; exact Hx].
  - intros (a & p & b & Hm & Hp). exists (toLowerCase p). split; [exact Hp|].
    apply includes_app. exists (toLowerCase a), (toLowerCase b).
    rewrite Hm, !toLowerCase_app. reflexivity.
Qed.

Import Samples MoreSamples.

(** "429 Rate Limit hit" contains "Rate Limit". *)
Lemma shouldUseFallback_spec_witness :
  (exists a p b,
     message rate_limited = (a ++ p ++ b)%string /\ In (toLowerCase p) quotaErrors)
  /\ shouldUseFallback rate_limited = true.
Proof.
  assert (H : exists a p b,
             message rate_limited = (a ++ p ++ b)%string
             /\ In (toLowerCase p) quotaErrors).
  { exists "429 "%string, "Rate Limit"%string, " hit"%string.
    split; [reflexivity|]. right. left. reflexivity. }
  split; [exact H|]. exact (proj2 (shouldUseFallback_spec rate_limited) H).
Defined.

(** Four failures on the default breaker (threshold 5). *)
Lemma below_threshold_stays_closed_witness :
  state (constructor default_options) = CLOSED
  /\ failureCount (constructor default_options) + Z.of_nat 4
     < failureThreshold (constructor default_options)
  /\ state (breaker_of (fire_each read_clock (constructor default_options)
                          four_failures start)) = CLOSED
  /\ failureCount (breaker_of (fire_each read_clock (constructor default_options)
                                 four_failures start))
     = failureCount (constructor default_options) + Z.of_nat 4
  /\ calls (snd (fire_each read_clock (constructor default_options)
                   four_failures start)) = (calls start + 4)%nat.
Proof.
  assert (Hall : Forall (fun operation : Callback Clock =>
                           forall w, failed (fst (operation w))) four_failures).
  { unfold four_failures.
    repeat (apply List.Forall_cons; [intros w; exact I|]). apply List.Forall_nil. }
  pose proof (BreakerFacts.fire_each_failed_calls Clock read_clock four_failures
                (constructor default_options) start Hall) as Hrun.
  split; [reflexivity|]. split; [reflexivity|].
  exact (below_threshold_stays_closed Clock read_clock 4 (constructor default_options)
           start _ _ Hrun eq_refl eq_refl).
Defined.

Lemma ticking_always_succeeds (v : value) : always_succeeds (ticking v).
Proof. intros w. exists v. reflexivity. Qed.

(** The opened default breaker, probed three times from instant 40000. *)
Lemma three_successes_close_witness :
  state opened_breaker = OPEN
  /\ resetTimeout opened_breaker <= elapsed (read_clock (world late)) opened_breaker
  /\ state (breaker_of (fire_each read_clock opened_breaker
                          [ticking (VNum 1); ticking (VNum 2)] late)) = HALF_OPEN
  /\ state (breaker_of (fire_each read_clock opened_breaker
                          [ticking (VNum 1); ticking (VNum 2); ticking (VNum 3)] late))
     = CLOSED.
Proof.
  assert (H1 : state opened_breaker = OPEN) by reflexivity.
  assert (H2 : resetTimeout opened_breaker
               <= elapsed (read_clock (world late)) opened_breaker)
    by (vm_compute; discriminate).
  destruct (three_successes_close Clock read_clock opened_breaker
              (ticking (VNum 1)) (ticking (VNum 2)) (ticking (VNum 3)) late H1 H2
              (ticking_always_succeeds _) (ticking_always_succeeds _)
              (ticking_always_succeeds _))
    as (_ & Ha & Hb & _).
  split; [exact H1|]. split; [exact H2|]. split; [exact Ha | exact Hb].
Defined.

(** One success, then the four failures. *)
Lemma success_restarts_count_witness :
  state (constructor default_options) = CLOSED
  /\ state (breaker_of (fire_each read_clock (breaker_of after_success) four_failures
                          {| world := 10; calls := calls (snd after_success) |}))
     = CLOSED
  /\ failureCount (breaker_of (fire_each read_clock (breaker_of after_success)
                                 four_failures
                                 {| world := 10; calls := calls (snd after_success) |}))
     = Z.of_nat 4.
Proof.
  assert (Hall : Forall (fun operation : Callback Clock =>
                           forall w, failed (fst (operation w))) four_failures).
  { unfold four_failures.
    repeat (apply List.Forall_cons; [intros w; exact I|]). apply List.Forall_nil. }
  pose proof (BreakerFacts.fire_each_failed_calls Clock read_clock four_failures
                (breaker_of after_success)
                {| world := 10; calls := calls (snd after_success) |} Hall) as Hrun.
  split; [reflexivity|].
  exact (success_restarts_count Clock read_clock 4 (constructor default_options)
           (ticking (VNum 1)) start (VNum 1) (breaker_of after_success)
           (snd after_success) 10 _ _ eq_refl eq_refl eq_refl Hrun eq_refl).
Defined.

(** A timeout error on the default breaker (closed), and on the opened
    default breaker probed after the reset timeout: the fallback's [null]. *)
Lemma failure_propagates_or_falls_back_witness :
  state (constructor default_options) <> OPEN
  /\ awaited (fst (rejecting timeout_error 1 (world start))) = inr timeout_error
  /\ (let '(result, cb', env') :=
        fire read_clock (constructor default_options) (rejecting timeout_error 1) start in
      totalFailures (stats cb') = totalFailures (stats (constructor default_options)) + 1
      /\ calls env' = S (calls start)
      /\ (shouldUseFallback timeout_error = false ->
          result = Rejected (VErr timeout_error) /\ world env' = 1
          /\ totalFallbacks (stats cb')
             = totalFallbacks (stats (constructor default_options)))
      /\ (shouldUseFallback timeout_error = true ->
          result = returned (fst (fallback (constructor default_options) 1))
          /\ world env' = snd (fallback (constructor default_options) 1)
          /\ totalFallbacks (stats cb')
             = totalFallbacks (stats (constructor default_options)) + 1))
  /\ resetTimeout opened_breaker <= elapsed (read_clock (world late)) opened_breaker
  /\ (let '(result, cb', env') :=
        fire read_clock opened_breaker (rejecting boom 40001) late in
      totalFailures (stats cb') = totalFailures (stats opened_breaker) + 1
      /\ calls env' = S (calls late)
      /\ (shouldUseFallback boom = false ->
          result = Rejected (VErr boom) /\ world env' = 40001
          /\ totalFallbacks (stats cb') = totalFallbacks (stats opened_breaker))
      /\ (shouldUseFallback boom = true ->
          result = returned (fst (fallback opened_breaker 40001))
          /\ world env' = snd (fallback opened_breaker 40001)
          /\ totalFallbacks (stats cb') = totalFallbacks (stats opened_breaker) + 1)).
Proof.
  assert (H1 : state (constructor default_options) <> OPEN) by discriminate.
  assert (H2 : resetTimeout opened_breaker
               <= elapsed (read_clock (world late)) opened_breaker)
    by (vm_compute; discriminate).
  split; [exact H1|]. split; [reflexivity|].
  split; [exact (failure_propagates_or_falls_back Clock read_clock
                   (constructor default_options) (rejecting timeout_error 1) start
                   timeout_error (or_introl H1) eq_refl)|].
  split; [exact H2|].
  exact (failure_propagates_or_falls_back Clock read_clock opened_breaker
           (rejecting boom 40001) late boom (or_intror H2) eq_refl).
Defined.


End BreakerMore.

(** * Further properties of the rate limiter *)

Module LimiterMore.

Import Limiter.

Section WithCalendar.

Variable getTomorrowMidnight : Z -> Z.

(** What the lazy reset does to one resource. *)
Lemma lookup_reset service now rl :
  quotas (resetQuotasIfNeeded getTomorrowMidnight now rl) !! service
  = (fun quota =>
       if resetTime quota <=? now
       then {| used := 0; limit := limit quota;
               resetTime := getTomorrowMidnight now |}
       else quota) <$> quotas rl !! service.
Proof. unfold resetQuotasIfNeeded. simpl. apply lookup_fmap. Qed.

Lemma reset_nothing_due now rl :
  (forall s q, quotas rl !! s = Some q -> now < resetTime q) ->
  resetQuotasIfNeeded getTomorrowMidnight now rl = rl.
Proof.
  intros Hdue. destruct rl as [qs al]. unfold resetQuotasIfNeeded. simpl in *.
  f_equal. apply map_eq. intros s. rewrite lookup_fmap.
  destruct (qs !! s) as [q|] eqn:Hq; [|reflexivity]. simpl.
  specialize (Hdue s q Hq).
  destruct (Z.leb_spec (resetTime q) now); [lia|reflexivity].
Qed.

(** The resources other than the one checked. *)
Lemma checkQuota_frame service other now rl :
  service <> other ->
  quotas (snd (checkQuota getTomorrowMidnight service now rl)) !! other
  = quotas (resetQuotasIfNeeded getTomorrowMidnight now rl) !! other.
Proof.
  intros Hne. unfold checkQuota.
  destruct (quotas (resetQuotasIfNeeded getTomorrowMidnight now rl) !! service)
    as [quota|]; [|destruct (inherited service); reflexivity].
  destruct (ratio_ge _ _); [reflexivity|]. simpl.
  apply lookup_insert_ne. exact Hne.
Qed.

(** X9.  A check of a name that is neither a resource of the limiter nor
    a property every object inherits fails with the unknown-service error,
    not the critical-usage one; a check of an inherited name ('toString',
    'constructor', '__proto__', ...) that is not a resource succeeds.
    Neither counts against any resource: the limiter is left as the lazy
    reset alone leaves it, and exactly as it was when no reset is due. *)
Theorem unknown_service_rejected service now rl :
  quotas rl !! service = None ->
  fst (checkQuota getTomorrowMidnight service now rl)
  = (if inherited service then Ok else Throw (UnknownService service))
  /\ snd (checkQuota getTomorrowMidnight service now rl)
     = resetQuotasIfNeeded getTomorrowMidnight now rl
  /\ ((forall s q, quotas rl !! s = Some q -> now < resetTime q) ->
      snd (checkQuota getTomorrowMidnight service now rl) = rl).
Proof.
  intros Hq. unfold checkQuota. rewrite lookup_reset, Hq. simpl.
  destruct (inherited service); simpl; repeat split; apply reset_nothing_due.
Qed.

(** X10.  Quotas are independent: a check of one resource, whether it
    succeeds or fails, leaves every other resource whose reset is not due
    exactly as it was. *)
Theorem other_resources_untouched service other now rl quota :
  service <> other ->
  quotas rl !! other = Some quota ->
  now < resetTime quota ->
  quotas (snd (checkQuota getTomorrowMidnight service now rl)) !! other = Some quota.
Proof.
  intros Hne Hq Ht. rewrite (checkQuota_frame _ _ _ _ Hne), lookup_reset, Hq. simpl.
  destruct (Z.leb_spec (resetTime quota) now); [lia|reflexivity].
Qed.

(** X11.  Rollover: a check made at or after the reset time of a resource
    with a positive ceiling succeeds whatever [used] was (also when the
    quota was exhausted), leaves [used] at 1 and moves the reset time to the
    next midnight. *)
Theorem rollover_admits_again service now rl quota :
  quotas rl !! service = Some quota ->
  criticalThreshold (alerts rl) = 95 # 100 ->
  0 < limit quota ->
  resetTime quota <= now ->
  fst (checkQuota getTomorrowMidnight service now rl) = Ok
  /\ quotas (snd (checkQuota getTomorrowMidnight service now rl)) !! service
     = Some {| used := 1; limit := limit quota;
               resetTime := getTomorrowMidnight now |}.
Proof.
  intros Hq Ha HL Ht. unfold checkQuota. rewrite lookup_reset, Hq. simpl.
  destruct (Z.leb_spec (resetTime quota) now); [|lia]. simpl.
  rewrite Ha, LimiterFacts.critical_test by exact HL.
  destruct (Z.leb_spec (19 * limit quota) (20 * 0)); [lia|]. simpl.
  split; [reflexivity|]. apply lookup_insert_eq.
Qed.

(** X12.  The usage never passes 95% of the ceiling rounded up: for a
    resource with a positive ceiling and [0 <= used <= ceil (0.95 * limit)],
    a check of any resource at any time keeps the ceiling and keeps [used]
    within these bounds. *)
Theorem used_stays_bounded service other now rl quota :
  quotas rl !! other = Some quota ->
  criticalThreshold (alerts rl) = 95 # 100 ->
  0 < limit quota ->
  0 <= used quota <= ceil_95 (limit quota) ->
  exists quota',
    quotas (snd (checkQuota getTomorrowMidnight service now rl)) !! other = Some quota'
    /\ limit quota' = limit quota
    /\ 0 <= used quota' <= ceil_95 (limit quota').
Proof.
  intros Hq Ha HL Hu.
  pose proof (LimiterFacts.ceil_95_bounds (limit quota)) as Hb.
  assert (Hreset : exists q1,
             quotas (resetQuotasIfNeeded getTomorrowMidnight now rl) !! other = Some q1
             /\ limit q1 = limit quota /\ 0 <= used q1 <= ceil_95 (limit q1)).
  { rewrite lookup_reset, Hq. simpl. destruct (resetTime quota <=? now).
    - eexists. split; [reflexivity|]. simpl. split; [reflexivity|]. lia.
    - exists quota. auto. }
  destruct Hreset as (q1 & Hq1 & HL1 & Hu1).
  destruct (decide (service = other)) as [->|Hne].
  - unfold checkQuota. rewrite Hq1. simpl. rewrite Ha.
    rewrite LimiterFacts.critical_test by lia.
    destruct (Z.leb_spec (19 * limit q1) (20 * used q1)); simpl.
    + exists q1. auto.
    + eexists. split; [apply lookup_insert_eq|]. simpl. split; [exact HL1|].
      rewrite HL1 in *. lia.
  - exists q1. rewrite (checkQuota_frame _ _ _ _ Hne). auto.
Qed.

(** X13.  [getUsageStats()] reports exactly the resources the limiter
    holds; in each report [used + remaining = limit] and [resetIn] is not
    negative; a resource whose reset is due is reported with [used = 0] and
    [remaining = limit], any other with its present [used] and the time left
    to its reset. *)
Theorem usage_stats_consistent now rl service :
  match quotas rl !! service with
  | None => fst (getUsageStats getTomorrowMidnight now rl) !! service = None
  | Some quota =>
      exists st,
        fst (getUsageStats getTomorrowMidnight now rl) !! service = Some st
        /\ stat_limit st = limit quota
        /\ stat_used st + stat_remaining st = stat_limit st
        /\ 0 <= stat_resetIn st
        /\ (resetTime quota <= now ->
            stat_used st = 0 /\ stat_remaining st = limit quota)
        /\ (now < resetTime quota ->
            stat_used st = used quota /\ stat_resetIn st = resetTime quota - now)
  end.
Proof.
  unfold getUsageStats. simpl. rewrite !lookup_fmap.
  destruct (quotas rl !! service) as [quota|]; [|reflexivity]. simpl.
  eexists. split; [reflexivity|].
  destruct (Z.leb_spec (resetTime quota) now); simpl;
    repeat split; try lia.
Qed.

(** X14.  When [getTomorrowMidnight] lies in the future of the instant it
    is computed at, no resource is left with a reset time that has passed:
    after a check at [now] every reset time is later than [now]. *)
Theorem reset_times_in_future service now rl other quota' :
  (forall t, t < getTomorrowMidnight t) ->
  quotas (snd (checkQuota getTomorrowMidnight service now rl)) !! other = Some quota' ->
  now < resetTime quota'.
Proof.
  intros Hmid.
  assert (Hreset : forall q1,
             quotas (resetQuotasIfNeeded getTomorrowMidnight now rl) !! other = Some q1 ->
             now < resetTime q1).
  { intros q1. rewrite lookup_reset.
    destruct (quotas rl !! other) as [q|]; simpl; [|discriminate].
    destruct (Z.leb_spec (resetTime q) now); intros [= <-]; simpl; auto. }
  destruct (decide (service = other)) as [->|Hne].
  - unfold checkQuota.
    destruct (quotas (resetQuotasIfNeeded getTomorrowMidnight now rl) !! other)
      as [q1|] eqn:Hq1.
    + destruct (ratio_ge _ _); cbn [snd quotas].
      * rewrite Hq1. intros [= <-]. apply Hreset. reflexivity.
      * rewrite lookup_insert_eq. intros [= <-]. cbn [resetTime]. apply Hreset.
        reflexivity.
    + destruct (inherited other); cbn [snd ratio_ge]; rewrite Hq1; discriminate.
  - rewrite (checkQuota_frame _ _ _ _ Hne). apply Hreset.
Qed.

End WithCalendar.

Import Samples MoreSamples.

Lemma utc_midnight_later (t : Z) : t < utc_midnight t.
Proof.
  unfold utc_midnight.
  pose proof (Z.div_mod t 86400000 ltac:(lia)).
  pose proof (Z.mod_pos_bound t 86400000 ltac:(lia)). lia.
Qed.

(** A check of "reads", and one of "toString", on a limiter that holds
    only "small". *)
Lemma unknown_service_rejected_witness :
  quotas small_limiter !! "reads"%string = None
  /\ fst (checkQuota utc_midnight "reads" 5 small_limiter)
     = Throw (UnknownService "reads")
  /\ quotas small_limiter !! "toString"%string = None
  /\ fst (checkQuota utc_midnight "toString" 5 small_limiter) = Ok
  /\ ((forall s q, quotas small_limiter !! s = Some q -> 5 < resetTime q) ->
      snd (checkQuota utc_midnight "toString" 5 small_limiter) = small_limiter).
Proof.
  assert (H : quotas small_limiter !! "reads"%string = None) by (vm_compute; reflexivity).
  assert (H' : quotas small_limiter !! "toString"%string = None)
    by (vm_compute; reflexivity).
  destruct (unknown_service_rejected utc_midnight "reads" 5 small_limiter H)
    as (H1 & _ & _).
  destruct (unknown_service_rejected utc_midnight "toString" 5 small_limiter H')
    as (H2 & _ & H3).
  split; [exact H|]. split; [exact H1|]. split; [exact H'|].
  split; [exact H2 | exact H3].
Defined.

(** A check of "reads" leaves "writes" alone. *)
Lemma other_resources_untouched_witness :
  "reads"%string <> "writes"%string
  /\ quotas two_limiter !! "writes"%string
     = Some {| used := 7; limit := 40; resetTime := 86400000 |}
  /\ quotas (snd (checkQuota utc_midnight "reads" 5 two_limiter)) !! "writes"%string
     = Some {| used := 7; limit := 40; resetTime := 86400000 |}.
Proof.
  assert (H1 : "reads"%string <> "writes"%string) by discriminate.
  assert (H2 : quotas two_limiter !! "writes"%string
               = Some {| used := 7; limit := 40; resetTime := 86400000 |})
    by (vm_compute; reflexivity).
  split; [exact H1|]. split; [exact H2|].
  exact (other_resources_untouched utc_midnight "reads" "writes" 5 two_limiter _
           H1 H2 eq_refl).
Defined.

(** The exhausted resource, checked one millisecond after its reset time. *)
Lemma rollover_admits_again_witness :
  quotas exhausted_limiter !! "small"%string
  = Some {| used := 10; limit := 10; resetTime := 86400000 |}
  /\ fst (checkQuota utc_midnight "small" 86400001 exhausted_limiter) = Ok
  /\ quotas (snd (checkQuota utc_midnight "small" 86400001 exhausted_limiter))
       !! "small"%string
     = Some {| used := 1; limit := 10; resetTime := utc_midnight 86400001 |}.
Proof.
  assert (H : quotas exhausted_limiter !! "small"%string
              = Some {| used := 10; limit := 10; resetTime := 86400000 |})
    by (vm_compute; reflexivity).
  split; [exact H|].
  refine (rollover_admits_again utc_midnight "small" 86400001 exhausted_limiter _
            H eq_refl eq_refl _).
  discriminate.
Defined.

(** The exhausted resource stays within its bounds. *)
Lemma used_stays_bounded_witness :
  quotas exhausted_limiter !! "small"%string
  = Some {| used := 10; limit := 10; resetTime := 86400000 |}
  /\ 0 <= 10 <= ceil_95 10
  /\ exists quota',
       quotas (snd (checkQuota utc_midnight "small" 5 exhausted_limiter))
         !! "small"%string = Some quota'
       /\ limit quota' = 10
       /\ 0 <= used quota' <= ceil_95 (limit quota').
Proof.
  assert (H : quotas exhausted_limiter !! "small"%string
              = Some {| used := 10; limit := 10; resetTime := 86400000 |})
    by (vm_compute; reflexivity).
  assert (H2 : 0 <= 10 <= ceil_95 10) by (split; discriminate).
  split; [exact H|]. split; [exact H2|].
  exact (used_stays_bounded utc_midnight "small" "small" 5 exhausted_limiter _
           H eq_refl eq_refl H2).
Defined.

(** The usage report of "reads" at instant 5. *)
Lemma usage_stats_consistent_witness :
  exists st,
    fst (getUsageStats utc_midnight 5 two_limiter) !! "reads"%string = Some st
    /\ stat_limit st = 100
    /\ stat_used st + stat_remaining st = stat_limit st
    /\ 0 <= stat_resetIn st
    /\ stat_used st = 3.
Proof.
  pose proof (usage_stats_consistent utc_midnight 5 two_limiter "reads") as H.
  assert (Hq : quotas two_limiter !! "reads"%string
               = Some {| used := 3; limit := 100; resetTime := 86400000 |})
    by (vm_compute; reflexivity).
  rewrite Hq in H. destruct H as (st & H1 & H2 & H3 & H4 & _ & H6).
  exists st. repeat split; try assumption. apply H6. reflexivity.
Defined.

(** With UTC midnights: a check one millisecond after the reset time. *)
Lemma reset_times_in_future_witness :
  (forall t, t < utc_midnight t)
  /\ quotas (snd (checkQuota utc_midnight "small" 86400001 exhausted_limiter))
       !! "small"%string
     = Some {| used := 1; limit := 10; resetTime := utc_midnight 86400001 |}
  /\ 86400001 < utc_midnight 86400001.
Proof.
  assert (H : quotas (snd (checkQuota utc_midnight "small" 86400001 exhausted_limiter))
                !! "small"%string
              = Some {| used := 1; limit := 10; resetTime := utc_midnight 86400001 |})
    by (vm_compute; reflexivity).
  split; [exact utc_midnight_later|]. split; [exact H|].
  exact (reset_times_in_future utc_midnight "small" 86400001 exhausted_limiter
           "small" _ utc_midnight_later H).
Defined.

End LimiterMore.

(** * Further properties of the degradation manager *)

Module DegradationMore.

Import Degradation.

(** X15.  Cache round trip: a value stored with [setCachedResult] at [now]
    is what [getCachedResult] returns for that key at any instant before
    [now + ttl] (300000 ms when no [ttl] is given), the cache being left as
    it is; from [now + ttl] on the read returns [null] and removes the
    entry.  Storing under one key changes no other key and not the level. *)
Theorem cache_round_trip key d ttl now t m :
  let m1 := setCachedResult key d ttl now m in
  (t < now + default 300000 ttl -> getCachedResult key t m1 = (d, m1))
  /\ (now + default 300000 ttl <= t ->
      fst (getCachedResult key t m1) = VNull
      /\ cache (snd (getCachedResult key t m1)) !! key = None)
  /\ (forall other, other <> key -> cache m1 !! other = cache m !! other)
  /\ currentLevel m1 = currentLevel m.
Proof.
  unfold getCachedResult, setCachedResult. simpl. rewrite lookup_insert_eq. simpl.
  repeat split.
  - intros Ht. destruct (Z.ltb_spec t (now + default 300000 ttl)); [reflexivity|lia].
  - destruct (Z.ltb_spec t (now + default 300000 ttl)); [lia|reflexivity].
  - destruct (Z.ltb_spec t (now + default 300000 ttl)); [lia|]. simpl.
    apply lookup_delete_eq.
  - intros other Hne. apply lookup_insert_ne. congruence.
Qed.

(** X16.  [getCachedResult] never serves expired data: a result other than
    [null] is the data of an entry of that key that expires later than the
    instant of the read, and then the cache is unchanged.  Whatever the
    result, the other keys keep their entries. *)
Theorem cached_result_sound key now m :
  (fst (getCachedResult key now m) <> VNull ->
   exists entry,
     cache m !! key = Some entry /\ now < expires entry
     /\ fst (getCachedResult key now m) = data entry
     /\ snd (getCachedResult key now m) = m)
  /\ (forall other, other <> key ->
        cache (snd (getCachedResult key now m)) !! other = cache m !! other)
  /\ currentLevel (snd (getCachedResult key now m)) = currentLevel m.
Proof.
  unfold getCachedResult.
  destruct (cache m !! key) as [entry|] eqn:He.
  - destruct (Z.ltb_spec now (expires entry)); simpl.
    + repeat split. intros _. exists entry. auto.
    + repeat split; [congruence|]. intros other Hne. apply lookup_delete_ne. congruence.
  - simpl. repeat split; [congruence|]. intros other Hne. apply lookup_delete_ne.
    congruence.
Qed.

Section WithWorld.

Variable World : Type.
Variable Date_now : World -> Z.

Implicit Types (m : GracefulDegradationManager) (operation : Operation World)
         (fallbackOptions : FallbackOptions) (env : Env World).

(** The branch that [dispatch] takes at the minimal level. *)
Lemma dispatch_at_minimal m operation fallbackOptions env :
  currentLevel m = MINIMAL ->
  dispatch Date_now m operation fallbackOptions env
  = let (c, env) := optional_call Minimal (minimal operation) env in
    match awaited c with
    | inr error => (Caught error, m, env)
    | inl v =>
        if truthy v then (Completed (Fulfilled v), m, env)
        else let (r, m) := getCachedResult (cacheKey operation) (Date_now (world env)) m in
             (Completed (Fulfilled r), m, env)
    end.
Proof. intros H. unfold dispatch. rewrite H. reflexivity. Qed.

(** X18.  At the minimal level, without a [minimal] variant and without an
    unexpired cache entry for the key, the call fulfils with [null]: it is
    not an error, no variant is invoked and the level stays MINIMAL. *)
Theorem minimal_without_variant_is_null m operation fallbackOptions env :
  currentLevel m = MINIMAL ->
  minimal operation = None ->
  (forall entry, cache m !! cacheKey operation = Some entry ->
                 expires entry <= Date_now (world env)) ->
  exists m',
    executeWithDegradation Date_now m operation fallbackOptions env
    = Some (Fulfilled VNull, m', env)
    /\ currentLevel m' = MINIMAL.
Proof.
  intros Hl Hm Hc. unfold executeWithDegradation. rewrite Hl.
  change (Z.to_nat (EMERGENCY - MINIMAL)) with 1%nat. cbn [execute].
  rewrite dispatch_at_minimal by exact Hl. rewrite Hm. cbn [optional_call awaited truthy].
  unfold getCachedResult.
  destruct (cache m !! cacheKey operation) as [entry|] eqn:He.
  - specialize (Hc entry eq_refl).
    destruct (Z.ltb_spec (Date_now (world env)) (expires entry)); [lia|].
    eexists. split; [reflexivity|]. exact Hl.
  - eexists. split; [reflexivity|]. exact Hl.
Qed.

End WithWorld.

(** X22.  [getStatus()] names the level and describes it: 'NORMAL' with
    'All features operating normally' at level 0, 'REDUCED', 'MINIMAL' and
    'EMERGENCY' with their descriptions at levels 1, 2 and 3, and for any
    other level the name [undefined] with 'Unknown degradation level'.  Its
    cache size counts expired entries too: storing under a new key adds one
    at once and for good, and only a read of the key at or after its expiry
    takes it off again. *)
Theorem status_names_known_levels m :
  (currentLevel m = 0 ->
   status_level (getStatus m) = Some "NORMAL"%string
   /\ status_description (getStatus m) = "All features operating normally"%string)
  /\ (currentLevel m = 1 ->
      status_level (getStatus m) = Some "REDUCED"%string
      /\ status_description (getStatus m)
         = "Some advanced features disabled to preserve core functionality"%string)
  /\ (currentLevel m = 2 ->
      status_level (getStatus m) = Some "MINIMAL"%string
      /\ status_description (getStatus m)
         = "Only essential features available, using cached data where possible"%string)
  /\ (currentLevel m = 3 ->
      status_level (getStatus m) = Some "EMERGENCY"%string
      /\ status_description (getStatus m)
         = "Emergency mode - cached responses only"%string)
  /\ (currentLevel m < 0 \/ 3 < currentLevel m ->
      status_level (getStatus m) = None
      /\ status_description (getStatus m) = "Unknown degradation level"%string)
  /\ (forall key d ttl now t,
        cache m !! key = None ->
        let m1 := setCachedResult key d ttl now m in
        status_cacheSize (getStatus m1) = S (status_cacheSize (getStatus m))
        /\ (now + default 300000 ttl <= t ->
            status_cacheSize (getStatus (snd (getCachedResult key t m1)))
            = status_cacheSize (getStatus m))).
Proof.
  unfold getStatus, getDegradationDescription, NORMAL, REDUCED, MINIMAL, EMERGENCY.
  simpl.
  split; [intros ->; split; reflexivity|].
  split; [intros ->; split; reflexivity|].
  split; [intros ->; split; reflexivity|].
  split; [intros ->; split; reflexivity|].
  split.
  - intros Hl. split.
    + destruct (Z.ltb_spec (currentLevel m) 0); [reflexivity|].
      apply lookup_ge_None. simpl. lia.
    + destruct (Z.eqb_spec (currentLevel m) 0); [lia|].
      destruct (Z.eqb_spec (currentLevel m) 1); [lia|].
      destruct (Z.eqb_spec (currentLevel m) 2); [lia|].
      destruct (Z.eqb_spec (currentLevel m) 3); [lia|]. reflexivity.
  - intros key d ttl now t Hk. split.
    + apply map_size_insert_None. exact Hk.
    + intros Ht. unfold getCachedResult. simpl. rewrite lookup_insert_eq. simpl.
      destruct (Z.ltb_spec t (now + default 300000 ttl)); [lia|]. simpl.
      rewrite delete_insert_eq. rewrite delete_id by exact Hk. reflexivity.
Qed.

Import Samples MoreSamples.

(** A list stored at instant 0 for 500 ms, read at instant 100 and 500. *)
Lemma cache_round_trip_witness :
  100 < 0 + default 300000 (Some 500)
  /\ getCachedResult "users" 100 (setCachedResult "users" (VObj 1) (Some 500) 0 constructor)
     = (VObj 1, setCachedResult "users" (VObj 1) (Some 500) 0 constructor)
  /\ 0 + default 300000 (Some 500) <= 500
  /\ fst (getCachedResult "users" 500
            (setCachedResult "users" (VObj 1) (Some 500) 0 constructor)) = VNull.
Proof.
  destruct (cache_round_trip "users" (VObj 1) (Some 500) 0 100 constructor)
    as (H1 & _ & _ & _).
  destruct (cache_round_trip "users" (VObj 1) (Some 500) 0 500 constructor)
    as (_ & H2 & _ & _).
  split; [reflexivity|]. split; [apply H1; reflexivity|].
  split; [discriminate|]. apply H2. discriminate.
Defined.

(** The cached list read before it expires. *)
Lemma cached_result_sound_witness :
  fst (getCachedResult "users" 100 emergency_manager_list) <> VNull
  /\ exists entry,
       cache emergency_manager_list !! "users"%string = Some entry
       /\ 100 < expires entry
       /\ fst (getCachedResult "users" 100 emergency_manager_list) = data entry
       /\ snd (getCachedResult "users" 100 emergency_manager_list)
          = emergency_manager_list.
Proof.
  assert (H : fst (getCachedResult "users" 100 emergency_manager_list) <> VNull)
    by (vm_compute; discriminate).
  split; [exact H|].
  exact (proj1 (cached_result_sound "users" 100 emergency_manager_list) H).
Defined.

(** No variant and an empty cache at the minimal level. *)
Lemma minimal_without_variant_is_null_witness :
  currentLevel minimal_manager = MINIMAL
  /\ minimal no_variants = None
  /\ exists m',
       executeWithDegradation read_clock minimal_manager no_variants offline quiet
       = Some (Fulfilled VNull, m', quiet)
       /\ currentLevel m' = MINIMAL.
Proof.
  split; [reflexivity|]. split; [reflexivity|].
  apply (minimal_without_variant_is_null Clock read_clock minimal_manager no_variants
           offline quiet eq_refl eq_refl).
  intros entry H. vm_compute in H. discriminate.
Defined.

(** The new manager, a manager at level 4, and a list cached for 500 ms. *)
Lemma status_names_known_levels_witness :
  (status_level (getStatus constructor) = Some "NORMAL"%string
   /\ status_description (getStatus constructor)
      = "All features operating normally"%string)
  /\ (status_level (getStatus beyond_manager) = None
      /\ status_description (getStatus beyond_manager)
         = "Unknown degradation level"%string)
  /\ status_cacheSize (getStatus (setCachedResult "users" (VObj 1) (Some 500) 0 constructor))
     = S (status_cacheSize (getStatus constructor))
  /\ status_cacheSize
       (getStatus (snd (getCachedResult "users" 600
                          (setCachedResult "users" (VObj 1) (Some 500) 0 constructor))))
     = status_cacheSize (getStatus constructor).
Proof.
  destruct (status_names_known_levels constructor) as (H0 & _ & _ & _ & _ & Hsize).
  destruct (status_names_known_levels beyond_manager) as (_ & _ & _ & _ & Hout & _).
  destruct (Hsize "users"%string (VObj 1) (Some 500) 0 600 eq_refl) as (Hs1 & Hs2).
  split; [apply H0; reflexivity|]. split; [apply Hout; right; reflexivity|].
  split; [exact Hs1 | apply Hs2; discriminate].
Defined.

End DegradationMore.

(** * Further properties of retryWithBackoff *)

Module RetryMore.

Import Retry.

Section WithOperation.

Variable operation : nat -> Completion.
Variable random : nat -> Q.

Section Loop.

Variable max_retries : Z.
Variable base_delay max_delay backoff_factor : Q.
Variable retry_condition : Error -> bool.

(** [n] failures that are retried, then a failure that is not: the last
    allowed attempt, or an error the retry condition refuses. *)
Lemma loop_gives_up (n : nat) : forall (fuel : nat) (attempt : Z) (run : Run) e,
  (n < fuel)%nat ->
  attempt + Z.of_nat n <= max_retries ->
  (forall k, (k < n)%nat ->
     exists e', awaited (operation (calls run + k)) = inr e'
                /\ retry_condition e' = true) ->
  awaited (operation (calls run + n)) = inr e ->
  attempt + Z.of_nat n = max_retries \/ retry_condition e = false ->
  exists run',
    loop operation random max_retries base_delay max_delay backoff_factor
      retry_condition fuel attempt run = Some (Rejected (VErr e), run')
    /\ calls run' = S (calls run + n)
    /\ length (sleeps run') = (length (sleeps run) + n)%nat
    /\ lastError run' = Some e.
Proof.
  induction n as [|n IH]; intros fuel attempt run e Hfuel Hle Hfail Hlast Hstop;
    (destruct fuel as [|fuel]; [lia|]); simpl.
  - destruct (Z.leb_spec attempt max_retries); [|lia].
    rewrite Nat.add_0_r in Hlast. rewrite Hlast.
    assert (Hb : (attempt =? max_retries) || negb (retry_condition e) = true).
    { destruct Hstop as [Hs|Hs].
      - destruct (Z.eqb_spec attempt max_retries); [reflexivity|lia].
      - rewrite Hs. apply orb_true_r. }
    rewrite Hb. eexists. split; [reflexivity|]. simpl. repeat split; lia.
  - destruct (Z.leb_spec attempt max_retries); [|lia].
    destruct (Hfail O ltac:(lia)) as (e' & He' & Hrc).
    rewrite Nat.add_0_r in He'. rewrite He', Hrc.
    destruct (Z.eqb_spec attempt max_retries); [lia|]. simpl.
    edestruct (IH fuel (attempt + 1)) with (e := e) as (run' & E & Hcalls & Hsl & Hle');
      [| | | | | exists run'; split; [exact E|]].
    + lia.
    + lia.
    + simpl. intros k Hk. destruct (Hfail (S k) ltac:(lia)) as (e'' & He'' & Hrc').
      exists e''. replace (calls run + S k)%nat with (S (calls run + k)) in He'' by lia.
      auto.
    + simpl. replace (calls run + S n)%nat with (S (calls run + n)) in Hlast by lia.
      exact Hlast.
    + destruct Hstop; [left; lia | right; assumption].
    + simpl in Hcalls, Hsl. repeat split; [lia | lia | exact Hle'].
Qed.

(** After the loop, either nothing was done or one call more than sleeps was
    made. *)
Lemma loop_sleeps (fuel : nat) : forall (attempt : Z) (run : Run) r run',
  calls run = length (sleeps run) ->
  loop operation random max_retries base_delay max_delay backoff_factor
    retry_condition fuel attempt run = Some (r, run') ->
  (run' = run /\ max_retries < attempt) \/ calls run' = S (length (sleeps run')).
Proof.
  induction fuel as [|fuel IH]; intros attempt run r run' Hinv; [discriminate|].
  simpl. destruct (Z.leb_spec attempt max_retries).
  - destruct (awaited (operation (calls run))) as [v|error].
    + intros [= <- <-]. right. simpl. lia.
    + destruct (Z.eqb_spec attempt max_retries); simpl.
      * intros [= <- <-]. right. simpl. lia.
      * destruct (negb (retry_condition error)).
        -- intros [= <- <-]. right. simpl. lia.
        -- intros E. apply IH in E; [|simpl; lia].
           destruct E as [[_ E] | E]; [lia | right; exact E].
  - intros [= <- <-]. left. split; [reflexivity | lia].
Qed.

End Loop.

(** X23.  The retry condition ends the retries: when the first [n] calls
    fail with errors the condition accepts and call [n + 1] fails with an
    error it refuses ([n <= maxRetries]), [retryWithBackoff] rejects with
    that error after exactly [n + 1] calls and [n] delays, without a delay
    after the refused error. *)
Theorem refused_error_ends_retries (options : Options) (n : nat) (e : Error) :
  let max_retries := default 3 (maxRetries options) in
  let retry_condition := default (fun _ => true) (retryCondition options) in
  Z.of_nat n <= max_retries ->
  (forall k, (k < n)%nat ->
     exists e', awaited (operation k) = inr e' /\ retry_condition e' = true) ->
  awaited (operation n) = inr e ->
  retry_condition e = false ->
  exists run,
    retryWithBackoff operation random options = Some (Rejected (VErr e), run)
    /\ calls run = S n
    /\ length (sleeps run) = n.
Proof.
  intros max_retries retry_condition Hle Hfail Hlast Hstop. unfold retryWithBackoff.
  fold max_retries. fold retry_condition.
  edestruct (loop_gives_up max_retries (default 1000%Q (baseDelay options))
               (default 10000%Q (maxDelay options))
               (default 2%Q (backoffFactor options)) retry_condition n)
    with (e := e) as (run & E & Hcalls & Hsl & _);
    [| | | | | exists run; split; [exact E|]; split; [exact Hcalls | exact Hsl]].
  - lia.
  - lia.
  - exact Hfail.
  - exact Hlast.
  - right. exact Hstop.
Qed.

(** X24.  Exhaustion: when every call up to call [maxRetries + 1] fails
    with an error the retry condition accepts ([maxRetries >= 0]),
    [retryWithBackoff] rejects with the error of call [maxRetries + 1],
    after exactly [maxRetries + 1] calls and [maxRetries] delays. *)
Theorem retries_exhausted (options : Options) (e : Error) :
  let max_retries := default 3 (maxRetries options) in
  let retry_condition := default (fun _ => true) (retryCondition options) in
  0 <= max_retries ->
  (forall k, (k < Z.to_nat max_retries)%nat ->
     exists e', awaited (operation k) = inr e' /\ retry_condition e' = true) ->
  awaited (operation (Z.to_nat max_retries)) = inr e ->
  exists run,
    retryWithBackoff operation random options = Some (Rejected (VErr e), run)
    /\ Z.of_nat (calls run) = max_retries + 1
    /\ Z.of_nat (length (sleeps run)) = max_retries.
Proof.
  intros max_retries retry_condition Hge Hfail Hlast. unfold retryWithBackoff.
  fold max_retries. fold retry_condition.
  edestruct (loop_gives_up max_retries (default 1000%Q (baseDelay options))
               (default 10000%Q (maxDelay options))
               (default 2%Q (backoffFactor options)) retry_condition
               (Z.to_nat max_retries))
    with (e := e) as (run & E & Hcalls & Hsl & _);
    [| | | | | exists run; split; [exact E|]].
  - lia.
  - lia.
  - exact Hfail.
  - exact Hlast.
  - left. lia.
  - simpl in Hcalls, Hsl. lia.
Qed.

(** X25.  A delay is slept only between two calls: whatever the operation
    does, the run of [retryWithBackoff] either never called it and never
    slept, or made exactly one call more than it slept delays. *)
Theorem one_delay_between_calls (options : Options) r run :
  retryWithBackoff operation random options = Some (r, run) ->
  (calls run = O /\ sleeps run = [])
  \/ calls run = S (length (sleeps run)).
Proof.
  unfold retryWithBackoff. intros E. apply loop_sleeps in E; [|reflexivity].
  destruct E as [[-> _] | E]; [left; split; reflexivity | right; exact E].
Qed.

End WithOperation.

Import Samples MoreSamples.

(** One retried failure, then a quota error that is not retried. *)
Lemma refused_error_ends_retries_witness :
  Z.of_nat 1 <= default 3 (maxRetries skip_quota)
  /\ awaited (then_quota 1) = inr quota_error
  /\ not_quota quota_error = false
  /\ exists run,
       retryWithBackoff then_quota no_jitter skip_quota
       = Some (Rejected (VErr quota_error), run)
       /\ calls run = 2%nat
       /\ length (sleeps run) = 1%nat.
Proof.
  split; [discriminate|]. split; [reflexivity|]. split; [reflexivity|].
  apply (refused_error_ends_retries then_quota no_jitter skip_quota 1 quota_error).
  - discriminate.
  - intros [|k] Hk; [|lia]. exists first_error. split; reflexivity.
  - reflexivity.
  - reflexivity.
Defined.

(** Four failures under the default options. *)
Lemma retries_exhausted_witness :
  0 <= default 3 (maxRetries no_options)
  /\ exists run,
       retryWithBackoff never_working no_jitter no_options
       = Some (Rejected (VErr {| ref := 3; message := "ECONNRESET" |}), run)
       /\ Z.of_nat (calls run) = 3 + 1
       /\ Z.of_nat (length (sleeps run)) = 3.
Proof.
  split; [discriminate|].
  apply (retries_exhausted never_working no_jitter no_options).
  - discriminate.
  - intros k Hk. eexists. split; reflexivity.
  - reflexivity.
Defined.

Lemma never_working_result :
  exists r run, retryWithBackoff never_working half_jitter no_options = Some (r, run).
Proof. eexists _, _. vm_compute. reflexivity. Qed.

(** The always failing operation with jitter factor 1/2. *)
Lemma one_delay_between_calls_witness :
  exists r run,
    retryWithBackoff never_working half_jitter no_options = Some (r, run)
    /\ ((calls run = O /\ sleeps run = []) \/ calls run = S (length (sleeps run))).
Proof.
  destruct never_working_result as (r & run & E).
  exists r, run. split; [exact E|].
  exact (one_delay_between_calls never_working half_jitter no_options r run E).
Defined.

End RetryMore.

(** * Properties of the degradation manager with variants that reach it *)

Module SharedDegradationFacts.

Import Degradation SharedDegradation.

Section WithWorld.

Variable World : Type.
Variable Date_now : World -> Z.

Implicit Types (operation : Operation World) (fallbackOptions : FallbackOptions)
         (st : State World) (f : Variant World).

Lemma awaited_failed (c : Completion) : failed c -> exists e, awaited c = inr e.
Proof. destruct c; simpl; try contradiction; eauto. Qed.

Lemma call_some name f st :
  call name (Some f) st
  = (fst (f (manager st, world st)),
     {| manager := fst (snd (f (manager st, world st)));
        world := snd (snd (f (manager st, world st)));
        invoked := name :: invoked st |}).
Proof. unfold call. destruct (f (manager st, world st)) as [c [m w]]. reflexivity. Qed.

(** The branch that [dispatch] takes at each level. *)
Lemma shared_dispatch_normal operation fallbackOptions st :
  currentLevel (manager st) = NORMAL ->
  dispatch Date_now operation fallbackOptions st
  = let (c, st) := call Full (full operation) st in (return_await c, st).
Proof. intros H. unfold dispatch. rewrite H. reflexivity. Qed.

Lemma shared_dispatch_reduced operation fallbackOptions st :
  currentLevel (manager st) = REDUCED ->
  dispatch Date_now operation fallbackOptions st
  = let (c, st) := optional_call Reduced (reduced operation) st in
    match awaited c with
    | inr error => (Caught error, st)
    | inl v =>
        if truthy v then (Completed (Fulfilled v), st)
        else let (c, st) := call Full (full operation) st in
             (return_plain c, st)
    end.
Proof. intros H. unfold dispatch. rewrite H. reflexivity. Qed.

Lemma shared_dispatch_minimal operation fallbackOptions st :
  currentLevel (manager st) = MINIMAL ->
  dispatch Date_now operation fallbackOptions st
  = let (c, st) := optional_call Minimal (minimal operation) st in
    match awaited c with
    | inr error => (Caught error, st)
    | inl v =>
        if truthy v then (Completed (Fulfilled v), st)
        else let (r, m) := getCachedResult (cacheKey operation) (Date_now (world st))
                             (manager st) in
             (Completed (Fulfilled r), with_manager m st)
    end.
Proof. intros H. unfold dispatch. rewrite H. reflexivity. Qed.

Lemma shared_dispatch_emergency operation fallbackOptions st :
  currentLevel (manager st) = EMERGENCY ->
  dispatch Date_now operation fallbackOptions st
  = let (r, m) := getCachedResult (cacheKey operation) (Date_now (world st))
                    (manager st) in
    (Completed (Fulfilled (js_or r (emergency fallbackOptions))), with_manager m st).
Proof. intros H. unfold dispatch. rewrite H. reflexivity. Qed.

Lemma shared_dispatch_default operation fallbackOptions st :
  EMERGENCY < currentLevel (manager st) \/ currentLevel (manager st) < NORMAL ->
  dispatch Date_now operation fallbackOptions st
  = let (c, st) := call Full (full operation) st in (return_await c, st).
Proof.
  intros H. unfold dispatch, NORMAL, REDUCED, MINIMAL, EMERGENCY in *.
  destruct (Z.eqb_spec (currentLevel (manager st)) 0); [lia|].
  destruct (Z.eqb_spec (currentLevel (manager st)) 1); [lia|].
  destruct (Z.eqb_spec (currentLevel (manager st)) 2); [lia|].
  destruct (Z.eqb_spec (currentLevel (manager st)) 3); [lia|]. reflexivity.
Qed.

(** On variants that leave the manager alone, the two embeddings of
    [executeWithDegradation] agree. *)
Lemma call_lift name (o : option (Degradation.Callback World)) m env :
  call name (lift <$> o) (pack m env)
  = (fst (Degradation.call name o env), pack m (snd (Degradation.call name o env))).
Proof.
  destruct o as [g|]; [|reflexivity]. simpl. unfold lift, pack. simpl.
  destruct (g (Degradation.world env)) as [c w]. reflexivity.
Qed.

Lemma optional_call_lift name (o : option (Degradation.Callback World)) m env :
  optional_call name (lift <$> o) (pack m env)
  = (fst (Degradation.optional_call name o env),
     pack m (snd (Degradation.optional_call name o env))).
Proof.
  destruct o as [g|]; [|reflexivity].
  unfold optional_call, Degradation.optional_call. apply (call_lift name (Some g)).
Qed.

Lemma dispatch_lift (operation : Degradation.Operation World) fallbackOptions m env :
  dispatch Date_now (lift_operation operation) fallbackOptions (pack m env)
  = let '(t, m', env') := Degradation.dispatch Date_now m operation fallbackOptions env in
    (t, pack m' env').
Proof.
  unfold dispatch, Degradation.dispatch. simpl.
  rewrite !call_lift, !optional_call_lift.
  destruct (currentLevel m =? NORMAL).
  { destruct (Degradation.call Full (Degradation.full operation) env). reflexivity. }
  destruct (currentLevel m =? REDUCED).
  { destruct (Degradation.optional_call Reduced (Degradation.reduced operation) env)
      as [c env1]. simpl.
    destruct (awaited c) as [v|e]; [|reflexivity].
    destruct (truthy v); [reflexivity|].
    rewrite call_lift.
    destruct (Degradation.call Full (Degradation.full operation) env1). reflexivity. }
  destruct (currentLevel m =? MINIMAL).
  { destruct (Degradation.optional_call Minimal (Degradation.minimal operation) env)
      as [c env1]. simpl.
    destruct (awaited c) as [v|e]; [|reflexivity].
    destruct (truthy v); [reflexivity|].
    destruct (getCachedResult _ _ _). reflexivity. }
  destruct (currentLevel m =? EMERGENCY).
  { destruct (getCachedResult _ _ _). reflexivity. }
  destruct (Degradation.call Full (Degradation.full operation) env). reflexivity.
Qed.

Lemma execute_lift (fuel : nat) :
  forall (operation : Degradation.Operation World) fallbackOptions m env,
  executeWithDegradation Date_now fuel (lift_operation operation) fallbackOptions
    (pack m env)
  = match Degradation.execute Date_now fuel m operation fallbackOptions env with
    | Some (s, m', env') => Some (s, pack m' env')
    | None => None
    end.
Proof.
  induction fuel as [|fuel IH]; intros operation fallbackOptions m env; [reflexivity|].
  simpl. rewrite dispatch_lift.
  destruct (Degradation.dispatch Date_now m operation fallbackOptions env)
    as [[[s|e] m1] env1]; [reflexivity|]. simpl.
  destruct (currentLevel m1 <? EMERGENCY); [|reflexivity].
  apply (IH operation fallbackOptions
           (setDegradationLevel (currentLevel m1 + 1) ("Error: " ++ message e) m1) env1).
Qed.

(** One run of the [try] block followed by [catch]. *)
Lemma shared_execute_caught fuel operation fallbackOptions st e st1 :
  dispatch Date_now operation fallbackOptions st = (Caught e, st1) ->
  currentLevel (manager st1) < EMERGENCY ->
  executeWithDegradation Date_now (S fuel) operation fallbackOptions st
  = executeWithDegradation Date_now fuel operation fallbackOptions
      (with_manager {| currentLevel := currentLevel (manager st1) + 1;
                       cache := cache (manager st1) |} st1).
Proof.
  intros Hd Hl. simpl. rewrite Hd.
  destruct (Z.ltb_spec (currentLevel (manager st1)) EMERGENCY); [|lia].
  unfold setDegradationLevel.
  destruct (Z.eqb_spec (currentLevel (manager st1)) (currentLevel (manager st1) + 1));
    [lia|reflexivity].
Qed.

Lemma shared_execute_completed fuel operation fallbackOptions st s st1 :
  dispatch Date_now operation fallbackOptions st = (Completed s, st1) ->
  executeWithDegradation Date_now (S fuel) operation fallbackOptions st = Some (s, st1).
Proof. intros Hd. simpl. rewrite Hd. reflexivity. Qed.

(** A variant that fails and leaves the manager alone. *)
Lemma call_failed_kept name f st :
  always_fails f -> keeps_manager f ->
  exists c e,
    call name (Some f) st
    = (c, {| manager := manager st; world := snd (snd (f (manager st, world st)));
             invoked := name :: invoked st |})
    /\ awaited c = inr e.
Proof.
  intros Hf Hk. rewrite call_some. rewrite (Hk (manager st) (world st)).
  destruct (awaited_failed _ (Hf (manager st, world st))) as [e He]. eauto.
Qed.

(** X17.  Full escalation: at the normal level, with the three variants
    present, each of them failing and leaving the manager alone,
    [executeWithDegradation] invokes [full], [reduced] and [minimal] once
    each, in this order, leaves the level at EMERGENCY and fulfils with the
    cached value (or with [fallbackOptions.emergency]); it does not
    reject. *)
Theorem failing_variants_end_in_emergency fuel operation fallbackOptions st f r mn :
  currentLevel (manager st) = NORMAL ->
  full operation = Some f -> reduced operation = Some r -> minimal operation = Some mn ->
  always_fails f -> always_fails r -> always_fails mn ->
  keeps_manager f -> keeps_manager r -> keeps_manager mn ->
  exists v st',
    executeWithDegradation Date_now (4 + fuel) operation fallbackOptions st
    = Some (Fulfilled v, st')
    /\ currentLevel (manager st') = EMERGENCY
    /\ invoked st' = Minimal :: Reduced :: Full :: invoked st
    /\ v = js_or (fst (getCachedResult (cacheKey operation) (Date_now (world st'))
                         (manager st)))
             (emergency fallbackOptions).
Proof.
  intros Hl Hf Hr Hm Hff Hrf Hmf Hfk Hrk Hmk.
  change (4 + fuel)%nat with (S (S (S (S fuel)))).
  destruct (call_failed_kept Full f st Hff Hfk) as (c0 & e0 & Hc0 & Ha0).
  set (st0 := {| manager := manager st; world := snd (snd (f (manager st, world st)));
                 invoked := Full :: invoked st |}) in *.
  assert (D0 : dispatch Date_now operation fallbackOptions st = (Caught e0, st0)).
  { rewrite shared_dispatch_normal by exact Hl. rewrite Hf, Hc0.
    unfold return_await. rewrite Ha0. reflexivity. }
  rewrite (shared_execute_caught _ _ _ _ _ _ D0) by (simpl; rewrite Hl; reflexivity).
  simpl manager. rewrite Hl.
  set (st0' := with_manager {| currentLevel := NORMAL + 1; cache := cache (manager st) |}
                 st0).
  destruct (call_failed_kept Reduced r st0' Hrf Hrk) as (c1 & e1 & Hc1 & Ha1).
  set (st1 := {| manager := manager st0';
                 world := snd (snd (r (manager st0', world st0')));
                 invoked := Reduced :: invoked st0' |}) in *.
  assert (D1 : dispatch Date_now operation fallbackOptions st0' = (Caught e1, st1)).
  { rewrite shared_dispatch_reduced by reflexivity. rewrite Hr. unfold optional_call.
    rewrite Hc1, Ha1. reflexivity. }
  rewrite (shared_execute_caught _ _ _ _ _ _ D1) by reflexivity.
  set (st1' := with_manager {| currentLevel := currentLevel (manager st1) + 1;
                               cache := cache (manager st1) |} st1).
  destruct (call_failed_kept Minimal mn st1' Hmf Hmk) as (c2 & e2 & Hc2 & Ha2).
  set (st2 := {| manager := manager st1';
                 world := snd (snd (mn (manager st1', world st1')));
                 invoked := Minimal :: invoked st1' |}) in *.
  assert (D2 : dispatch Date_now operation fallbackOptions st1' = (Caught e2, st2)).
  { rewrite shared_dispatch_minimal by reflexivity. rewrite Hm. unfold optional_call.
    rewrite Hc2, Ha2. reflexivity. }
  rewrite (shared_execute_caught _ _ _ _ _ _ D2) by reflexivity.
  set (st2' := with_manager {| currentLevel := currentLevel (manager st2) + 1;
                               cache := cache (manager st2) |} st2).
  assert (Hget : getCachedResult (cacheKey operation) (Date_now (world st2'))
                   (manager st2')
                 = (fst (getCachedResult (cacheKey operation) (Date_now (world st2'))
                           (manager st)),
                    {| currentLevel := EMERGENCY;
                       cache := cache (snd (getCachedResult (cacheKey operation)
                                              (Date_now (world st2')) (manager st))) |})).
  { unfold getCachedResult. simpl.
    destruct (cache (manager st) !! cacheKey operation) as [entry|]; [|reflexivity].
    destruct (_ <? _); reflexivity. }
  erewrite shared_execute_completed;
    [| rewrite shared_dispatch_emergency by reflexivity; rewrite Hget; reflexivity].
  eexists _, _. split; [reflexivity|]. simpl. auto.
Qed.

(** Variants that keep the level: [dispatch] keeps it too. *)
Lemma call_level name (o : option (Variant World)) st :
  (forall f, o = Some f -> keeps_level f) ->
  currentLevel (manager (snd (call name o st))) = currentLevel (manager st).
Proof.
  intros Hk. destruct o as [f|]; [|reflexivity].
  rewrite call_some. simpl. apply (Hk f eq_refl).
Qed.

Lemma optional_call_level name (o : option (Variant World)) st :
  (forall f, o = Some f -> keeps_level f) ->
  currentLevel (manager (snd (optional_call name o st))) = currentLevel (manager st).
Proof.
  intros Hk. destruct o as [f|] eqn:Ho; [|reflexivity].
  unfold optional_call. apply call_level. exact Hk.
Qed.

Lemma shared_dispatch_level operation fallbackOptions st :
  variants_keep_level operation ->
  currentLevel (manager (snd (dispatch Date_now operation fallbackOptions st)))
  = currentLevel (manager st).
Proof.
  intros Hk.
  assert (Hfull : forall f, full operation = Some f -> keeps_level f)
    by (intros f Hf; apply Hk; auto).
  assert (Hred : forall f, reduced operation = Some f -> keeps_level f)
    by (intros f Hf; apply Hk; auto).
  assert (Hmin : forall f, minimal operation = Some f -> keeps_level f)
    by (intros f Hf; apply Hk; auto).
  pose proof (call_level Full (full operation)) as Hcf.
  unfold dispatch.
  destruct (_ =? NORMAL).
  { specialize (Hcf st Hfull). destruct (call Full (full operation) st). exact Hcf. }
  destruct (_ =? REDUCED).
  { pose proof (optional_call_level Reduced (reduced operation) st Hred) as Hr.
    destruct (optional_call Reduced (reduced operation) st) as [c st1]. simpl in Hr.
    destruct (awaited c) as [v|e]; [|exact Hr].
    destruct (truthy v); [exact Hr|].
    specialize (Hcf st1 Hfull). destruct (call Full (full operation) st1).
    simpl in *. congruence. }
  destruct (_ =? MINIMAL).
  { pose proof (optional_call_level Minimal (minimal operation) st Hmin) as Hm.
    destruct (optional_call Minimal (minimal operation) st) as [c st1]. simpl in Hm.
    destruct (awaited c) as [v|e]; [|exact Hm].
    destruct (truthy v); [exact Hm|].
    pose proof (DegradationFacts.getCachedResult_level (cacheKey operation)
                  (Date_now (world st1)) (manager st1)) as Hg.
    destruct (getCachedResult _ _ _). simpl in *. congruence. }
  destruct (_ =? EMERGENCY).
  { pose proof (DegradationFacts.getCachedResult_level (cacheKey operation)
                  (Date_now (world st)) (manager st)) as Hg.
    destruct (getCachedResult _ _ _). simpl in *. exact Hg. }
  specialize (Hcf st Hfull). destruct (call Full (full operation) st). exact Hcf.
Qed.

(** What [dispatch] can return. *)
Lemma shared_dispatch_rejected operation fallbackOptions st reason st1 :
  dispatch Date_now operation fallbackOptions st = (Completed (Rejected reason), st1) ->
  currentLevel (manager st) = REDUCED /\ exists rest, invoked st1 = Full :: rest.
Proof.
  unfold dispatch.
  destruct (Z.eqb_spec (currentLevel (manager st)) NORMAL) as [H0|H0].
  { destruct (call Full (full operation) st) as [c st']. unfold return_await.
    destruct (awaited c); discriminate. }
  destruct (Z.eqb_spec (currentLevel (manager st)) REDUCED) as [H1|H1].
  { destruct (optional_call Reduced (reduced operation) st) as [c st'].
    destruct (awaited c) as [v|e]; [|discriminate].
    destruct (truthy v); [discriminate|].
    destruct (full operation) as [g|]; [|discriminate].
    rewrite call_some. destruct (fst (g (manager st', world st'))); simpl;
      try discriminate.
    intros [= <- <-]. simpl. eauto. }
  destruct (Z.eqb_spec (currentLevel (manager st)) MINIMAL) as [H2|H2].
  { destruct (optional_call Minimal (minimal operation) st) as [c st'].
    destruct (awaited c) as [v|e]; [|discriminate].
    destruct (truthy v); [discriminate|].
    destruct (getCachedResult _ _ _). discriminate. }
  destruct (Z.eqb_spec (currentLevel (manager st)) EMERGENCY) as [H3|H3].
  { destruct (getCachedResult _ _ _). discriminate. }
  destruct (call Full (full operation) st) as [c st']. unfold return_await.
  destruct (awaited c); discriminate.
Qed.

Lemma shared_dispatch_emergency_not_caught operation fallbackOptions st e st1 :
  currentLevel (manager st) = EMERGENCY ->
  dispatch Date_now operation fallbackOptions st <> (Caught e, st1).
Proof.
  intros Hl. rewrite shared_dispatch_emergency by exact Hl.
  destruct (getCachedResult _ _ _). discriminate.
Qed.

Lemma shared_execute_rejected (fuel : nat) :
  forall operation fallbackOptions st reason st',
  variants_keep_level operation ->
  currentLevel (manager st) <= EMERGENCY ->
  executeWithDegradation Date_now fuel operation fallbackOptions st
  = Some (Rejected reason, st') ->
  currentLevel (manager st') = REDUCED /\ exists rest, invoked st' = Full :: rest.
Proof.
  induction fuel as [|fuel IH]; intros operation fallbackOptions st reason st' Hk Hl;
    [discriminate|].
  simpl.
  pose proof (shared_dispatch_level operation fallbackOptions st Hk) as HL.
  destruct (dispatch Date_now operation fallbackOptions st) as [[s|e] st1] eqn:Hd;
    simpl in HL.
  - intros [= -> <-].
    destruct (shared_dispatch_rejected _ _ _ _ _ Hd) as (H1 & H2).
    split; [congruence | exact H2].
  - destruct (Z.ltb_spec (currentLevel (manager st1)) EMERGENCY) as [Hlt|Hge].
    + unfold setDegradationLevel.
      destruct (Z.eqb_spec (currentLevel (manager st1)) (currentLevel (manager st1) + 1));
        [lia|]. simpl.
      apply IH; [exact Hk|]. simpl. unfold EMERGENCY in *. lia.
    + exfalso.
      apply (shared_dispatch_emergency_not_caught operation fallbackOptions st e st1);
        [lia | exact Hd].
Qed.

(** X19.  With the level at EMERGENCY or below and variants that leave the
    level alone, the only way [executeWithDegradation] rejects is the reduced
    level's fall-back call of [full]: when it rejects, the level it leaves is
    REDUCED and [full] is the variant invoked last. *)
Theorem rejects_only_at_reduced fuel operation fallbackOptions st reason st' :
  variants_keep_level operation ->
  currentLevel (manager st) <= EMERGENCY ->
  executeWithDegradation Date_now fuel operation fallbackOptions st
  = Some (Rejected reason, st') ->
  currentLevel (manager st') = REDUCED /\ exists rest, invoked st' = Full :: rest.
Proof. apply shared_execute_rejected. Qed.

(** With variants that keep the level, enough fuel makes the call settle. *)
Lemma shared_execute_returns (fuel : nat) : forall operation fallbackOptions st,
  variants_keep_level operation ->
  (Z.to_nat (EMERGENCY - currentLevel (manager st)) < fuel)%nat ->
  exists s st',
    executeWithDegradation Date_now fuel operation fallbackOptions st = Some (s, st').
Proof.
  induction fuel as [|fuel IH]; intros operation fallbackOptions st Hk Hfuel; [lia|].
  simpl.
  pose proof (shared_dispatch_level operation fallbackOptions st Hk) as HL.
  destruct (dispatch Date_now operation fallbackOptions st) as [[s|e] st1]; simpl in HL.
  - eauto.
  - destruct (Z.ltb_spec (currentLevel (manager st1)) EMERGENCY) as [Hlt|Hge]; [|eauto].
    unfold setDegradationLevel.
    destruct (Z.eqb_spec (currentLevel (manager st1)) (currentLevel (manager st1) + 1));
      [lia|]. simpl.
    apply IH; [exact Hk|]. simpl. unfold EMERGENCY in *. lia.
Qed.

(** X27.  Errors are absorbed: with the level at EMERGENCY or below,
    variants that leave the level alone, and a [reduced] variant that, when
    it does not fail, yields a truthy value, [executeWithDegradation] fulfils
    (within [4 - level] runs of the [try] block); no error of a variant
    reaches the caller. *)
Theorem errors_absorbed fuel operation fallbackOptions st r :
  variants_keep_level operation ->
  currentLevel (manager st) <= EMERGENCY ->
  reduced operation = Some r ->
  (forall x v, awaited (fst (r x)) = inl v -> truthy v = true) ->
  (Z.to_nat (EMERGENCY - currentLevel (manager st)) < fuel)%nat ->
  exists v st',
    executeWithDegradation Date_now fuel operation fallbackOptions st
    = Some (Fulfilled v, st').
Proof.
  intros Hk Hl Hr Ht Hfuel.
  destruct (shared_execute_returns fuel operation fallbackOptions st Hk Hfuel)
    as (s & st' & E).
  destruct s as [v|reason]; [eauto|]. exfalso.
  assert (Hno : forall n st0 reason0 st0',
             currentLevel (manager st0) <= EMERGENCY ->
             executeWithDegradation Date_now n operation fallbackOptions st0
             <> Some (Rejected reason0, st0')).
  { clear E Hl Hfuel. induction n as [|n IH]; intros st0 reason0 st0' Hl0; [discriminate|].
    simpl.
    pose proof (shared_dispatch_level operation fallbackOptions st0 Hk) as HL.
    destruct (dispatch Date_now operation fallbackOptions st0) as [[s|e] st1] eqn:Hd;
      simpl in HL.
    - intros [= -> <-].
      destruct (shared_dispatch_rejected _ _ _ _ _ Hd) as (H1 & _).
      rewrite shared_dispatch_reduced in Hd by exact H1.
      rewrite Hr in Hd. unfold optional_call in Hd. rewrite call_some in Hd.
      specialize (Ht (manager st0, world st0)).
      destruct (awaited (fst (r (manager st0, world st0)))) as [v|e]; [|discriminate].
      rewrite (Ht v eq_refl) in Hd. discriminate.
    - destruct (Z.ltb_spec (currentLevel (manager st1)) EMERGENCY) as [Hlt|Hge].
      + unfold setDegradationLevel.
        destruct (Z.eqb_spec (currentLevel (manager st1))
                    (currentLevel (manager st1) + 1)); [lia|]. simpl.
        apply IH. simpl. unfold EMERGENCY in *. lia.
      + intros _.
        apply (shared_dispatch_emergency_not_caught operation fallbackOptions st0 e st1);
          [lia | exact Hd]. }
  exact (Hno fuel st reason st' Hl E).
Qed.

(** X20.  With the level above EMERGENCY (which [setDegradationLevel]
    accepts), the default branch invokes [full]; when [full] fails and leaves
    the level at EMERGENCY or above, its error is handed to the caller at
    once, without escalation. *)
Theorem beyond_emergency_propagates fuel operation fallbackOptions st f e :
  EMERGENCY < currentLevel (manager st) ->
  full operation = Some f ->
  awaited (fst (f (manager st, world st))) = inr e ->
  EMERGENCY <= currentLevel (fst (snd (f (manager st, world st)))) ->
  executeWithDegradation Date_now (S fuel) operation fallbackOptions st
  = Some (Rejected (VErr e),
          {| manager := fst (snd (f (manager st, world st)));
             world := snd (snd (f (manager st, world st)));
             invoked := Full :: invoked st |}).
Proof.
  intros Hl Hf He Hl1. simpl.
  rewrite shared_dispatch_default by (left; exact Hl).
  rewrite Hf, call_some. unfold return_await. rewrite He. simpl.
  destruct (Z.ltb_spec (currentLevel (fst (snd (f (manager st, world st))))) EMERGENCY);
    [lia|reflexivity].
Qed.

(** X21.  One step of degradation: at the normal level, when [full] fails
    leaving the level alone and [reduced], run at level REDUCED, then yields
    a truthy value, the call fulfils with that value, having invoked [full]
    and then [reduced]; the manager is left as [reduced] leaves it. *)
Theorem full_failure_falls_to_reduced fuel operation fallbackOptions st f r e v :
  currentLevel (manager st) = NORMAL ->
  full operation = Some f -> reduced operation = Some r ->
  awaited (fst (f (manager st, world st))) = inr e ->
  currentLevel (fst (snd (f (manager st, world st)))) = NORMAL ->
  let m1 := {| currentLevel := REDUCED;
               cache := cache (fst (snd (f (manager st, world st)))) |} in
  let w1 := snd (snd (f (manager st, world st))) in
  awaited (fst (r (m1, w1))) = inl v ->
  truthy v = true ->
  executeWithDegradation Date_now (2 + fuel) operation fallbackOptions st
  = Some (Fulfilled v,
          {| manager := fst (snd (r (m1, w1))); world := snd (snd (r (m1, w1)));
             invoked := Reduced :: Full :: invoked st |}).
Proof.
  intros Hl Hf Hr He Hl1 m1 w1 Hv Ht.
  change (2 + fuel)%nat with (S (S fuel)).
  assert (D0 : dispatch Date_now operation fallbackOptions st
               = (Caught e, {| manager := fst (snd (f (manager st, world st)));
                               world := w1; invoked := Full :: invoked st |})).
  { rewrite shared_dispatch_normal by exact Hl. rewrite Hf, call_some.
    unfold return_await. rewrite He. reflexivity. }
  rewrite (shared_execute_caught _ _ _ _ _ _ D0) by (simpl; rewrite Hl1; reflexivity).
  simpl manager. rewrite Hl1.
  apply shared_execute_completed.
  rewrite shared_dispatch_reduced by reflexivity. rewrite Hr. unfold optional_call.
  rewrite call_some. unfold with_manager. simpl manager. simpl world. simpl invoked.
  change {| currentLevel := NORMAL + 1;
            cache := cache (fst (snd (f (manager st, world st)))) |} with m1.
  fold w1. rewrite Hv, Ht. reflexivity.
Qed.


End WithWorld.

Import Samples MoreSamples.

Lemma plain_rejecting_fails : always_fails plain_rejecting.
Proof. intros [m w]. exact I. Qed.

Lemma plain_rejecting_keeps : keeps_manager plain_rejecting.
Proof. intros m w. reflexivity. Qed.

Lemma plain_variants_keep_level (f : Variant Clock) :
  f = plain_rejecting \/ f = plain_resolving -> keeps_level f.
Proof. intros [-> | ->] m w; reflexivity. Qed.

Lemma all_rejecting_keep_level : variants_keep_level all_rejecting.
Proof.
  intros f [H | [H | H]]; injection H as <-; apply plain_variants_keep_level; auto.
Qed.

Lemma only_full_keep_level : variants_keep_level only_full.
Proof.
  intros f [H | [H | H]]; try discriminate H.
  injection H as <-. apply plain_variants_keep_level; auto.
Qed.

Lemma level_resetting_resets : sets_reduced_and_fails level_resetting.
Proof.
  intros m w. split; [exact I|]. simpl. unfold setDegradationLevel.
  destruct (Z.eqb_spec (currentLevel m) 1) as [E|E]; simpl; [exact E|reflexivity].
Qed.

(** Three rejecting variants at the normal level. *)
Lemma failing_variants_end_in_emergency_witness :
  currentLevel (manager (shared_start constructor)) = NORMAL
  /\ exists v st',
       executeWithDegradation read_clock (4 + 0) all_rejecting offline
         (shared_start constructor)
       = Some (Fulfilled v, st')
       /\ currentLevel (manager st') = EMERGENCY
       /\ invoked st' = Minimal :: Reduced :: Full :: invoked (shared_start constructor)
       /\ v = js_or (fst (getCachedResult (cacheKey all_rejecting)
                            (read_clock (world st'))
                            (manager (shared_start constructor))))
                (emergency offline).
Proof.
  split; [reflexivity|].
  exact (failing_variants_end_in_emergency Clock read_clock 0 all_rejecting offline
           (shared_start constructor) _ _ _ eq_refl eq_refl eq_refl eq_refl
           plain_rejecting_fails plain_rejecting_fails plain_rejecting_fails
           plain_rejecting_keeps plain_rejecting_keeps plain_rejecting_keeps).
Defined.

(** The reduced level without a [reduced] variant, [full] rejecting. *)
Lemma rejects_only_at_reduced_witness :
  variants_keep_level only_full
  /\ currentLevel (manager (shared_start reduced_manager)) <= EMERGENCY
  /\ executeWithDegradation read_clock 3 only_full offline (shared_start reduced_manager)
     = Some (Rejected (VErr boom),
             {| manager := reduced_manager; world := 101; invoked := [Full] |})
  /\ currentLevel reduced_manager = REDUCED
  /\ exists rest, invoked {| manager := reduced_manager; world := (101 : Clock);
                            invoked := [Full] |} = Full :: rest.
Proof.
  assert (H1 : currentLevel (manager (shared_start reduced_manager)) <= EMERGENCY)
    by discriminate.
  assert (H2 : executeWithDegradation read_clock 3 only_full offline
                 (shared_start reduced_manager)
               = Some (Rejected (VErr boom),
                       {| manager := reduced_manager; world := 101; invoked := [Full] |}))
    by (vm_compute; reflexivity).
  split; [exact only_full_keep_level|]. split; [exact H1|]. split; [exact H2|].
  exact (rejects_only_at_reduced Clock read_clock 3 only_full offline
           (shared_start reduced_manager) _ _ only_full_keep_level H1 H2).
Defined.

(** Three rejecting variants, from the reduced level. *)
Lemma errors_absorbed_witness :
  variants_keep_level all_rejecting
  /\ currentLevel (manager (shared_start reduced_manager)) <= EMERGENCY
  /\ exists v st',
       executeWithDegradation read_clock 3 all_rejecting offline
         (shared_start reduced_manager)
       = Some (Fulfilled v, st').
Proof.
  assert (H1 : currentLevel (manager (shared_start reduced_manager)) <= EMERGENCY)
    by discriminate.
  split; [exact all_rejecting_keep_level|]. split; [exact H1|].
  apply (errors_absorbed Clock read_clock 3 all_rejecting offline
           (shared_start reduced_manager) plain_rejecting all_rejecting_keep_level H1
           eq_refl).
  - intros [m w] v H. discriminate H.
  - vm_compute. lia.
Defined.

(** Level 4, [full] rejecting. *)
Lemma beyond_emergency_propagates_witness :
  EMERGENCY < currentLevel (manager (shared_start beyond_manager))
  /\ executeWithDegradation read_clock 1 only_full offline (shared_start beyond_manager)
     = Some (Rejected (VErr boom),
             {| manager := beyond_manager; world := 101; invoked := [Full] |}).
Proof.
  split; [reflexivity|].
  exact (beyond_emergency_propagates Clock read_clock 0 only_full offline
           (shared_start beyond_manager) plain_rejecting boom eq_refl eq_refl eq_refl
           ltac:(discriminate)).
Defined.

(** [full] rejects and [reduced] resolves with an array. *)
Lemma full_failure_falls_to_reduced_witness :
  currentLevel (manager (shared_start constructor)) = NORMAL
  /\ executeWithDegradation read_clock (2 + 0) reduced_works offline
       (shared_start constructor)
     = Some (Fulfilled (VObj 2),
             {| manager := {| currentLevel := REDUCED; cache := cache constructor |};
                world := 102; invoked := [Reduced; Full] |}).
Proof.
  split; [reflexivity|].
  exact (full_failure_falls_to_reduced Clock read_clock 0 reduced_works offline
           (shared_start constructor) plain_rejecting plain_resolving boom (VObj 2)
           eq_refl eq_refl eq_refl eq_refl eq_refl eq_refl eq_refl).
Defined.


End SharedDegradationFacts.
